(** * Event lifecycle and delivery engine of ZapierEvents

    A shallow embedding of the event ingestion API (src/handlers/events.py),
    its DynamoDB binding (src/storage/dynamodb.py), the attribute filter
    engine (src/utils/filters.py) and the batch helpers
    (src/utils/batch_helpers.py).

    The handlers are [async] Python functions that call the store, the SQS
    queue and the push delivery client.  They are modelled in a small
    state-and-exception monad over a [World] holding the DynamoDB table,
    the queue, a log of every call made to the queue and to the delivery
    client, and scripted answers of the two remote services.  Store calls do
    not fail in the model; the queue and the delivery client answer from
    their scripts. *)

From Stdlib Require Import String Ascii List ZArith QArith Bool Lia Sorted Permutation.
Import ListNotations.

Local Open Scope Z_scope.
Set Warnings "-register-all".

(** ** JSON values and events (src/models/event.py) *)

Inductive json : Type :=
| JNull
| JBool (b : bool)
| JInt (z : Z)
| JFloat (q : Q)
| JStr (s : string)
| JList (l : list json)
| JObj (kvs : list (string * json)).

(** A Python [dict] with string keys, in insertion order. *)
Definition jdict := list (string * json).

(** [Event.status] is constrained by the pattern
    [^(pending|delivered|failed|replayed)$]. *)
Inductive Status : Type := Pending | Delivered | Failed | Replayed.

Definition status_str (s : Status) : string :=
  match s with
  | Pending => "pending" | Delivered => "delivered"
  | Failed => "failed" | Replayed => "replayed"
  end.

Definition status_eqb (a b : Status) : bool :=
  String.eqb (status_str a) (status_str b).

(** Timestamps ([datetime]) are seconds since the epoch. *)
Definition timestamp := Z.

Record Event : Type := mkEvent {
  event_id : string;
  event_type : string;
  payload : jdict;
  metadata : option jdict;
  status : Status;
  created_at : timestamp;
  delivered_at : option timestamp;
  delivery_attempts : Z;
  user_id : option string;
  idempotency_key : option string
}.

(** Attribute assignment on the (mutable) pydantic model. *)
Definition set_status (s : Status) (e : Event) : Event :=
  mkEvent e.(event_id) e.(event_type) e.(payload) e.(metadata) s
    e.(created_at) e.(delivered_at) e.(delivery_attempts) e.(user_id)
    e.(idempotency_key).

Definition set_delivered_at (t : option timestamp) (e : Event) : Event :=
  mkEvent e.(event_id) e.(event_type) e.(payload) e.(metadata) e.(status)
    e.(created_at) t e.(delivery_attempts) e.(user_id) e.(idempotency_key).

Definition set_delivery_attempts (n : Z) (e : Event) : Event :=
  mkEvent e.(event_id) e.(event_type) e.(payload) e.(metadata) e.(status)
    e.(created_at) e.(delivered_at) n e.(user_id) e.(idempotency_key).

Definition set_payload (p : jdict) (e : Event) : Event :=
  mkEvent e.(event_id) e.(event_type) p e.(metadata) e.(status)
    e.(created_at) e.(delivered_at) e.(delivery_attempts) e.(user_id)
    e.(idempotency_key).

Definition set_metadata (m : option jdict) (e : Event) : Event :=
  mkEvent e.(event_id) e.(event_type) e.(payload) m e.(status)
    e.(created_at) e.(delivered_at) e.(delivery_attempts) e.(user_id)
    e.(idempotency_key).

Definition set_idempotency_key (k : option string) (e : Event) : Event :=
  mkEvent e.(event_id) e.(event_type) e.(payload) e.(metadata) e.(status)
    e.(created_at) e.(delivered_at) e.(delivery_attempts) e.(user_id) k.

Definition opt_str_eqb (a b : option string) : bool :=
  match a, b with
  | Some x, Some y => String.eqb x y
  | None, None => true
  | _, _ => false
  end.

(** Python truthiness of an optional string. *)
Definition truthy (s : option string) : bool :=
  match s with Some x => negb (String.eqb x "") | None => false end.

(** [a or b] on optional strings. *)
Definition py_or (a b : option string) : option string :=
  if truthy a then a else b.

(** ** The world the handlers act on *)

(** Answer of [PushDeliveryClient.deliver_event]: [True], [False], or an
    exception escaping the client. *)
Inductive DeliveryOutcome : Type := DeliverOk | DeliverFail | DeliverRaise.

Record World : Type := mkWorld {
  table : list Event;                 (* DynamoDB items, keyed by event_id *)
  clock : timestamp;                  (* datetime.now(timezone.utc) *)
  delivery_log : list Event;          (* every deliver_event call *)
  deliver_script : list DeliveryOutcome;
  send_log : list (string * Event);   (* every send_message call *)
  queue : list (string * Event);      (* messages accepted by SQS *)
  send_script : list bool             (* false: send_message raises *)
}.

Inductive Exc : Type :=
| HTTPException (code : Z) (detail : string)
| ValueError (msg : string)
| TypeError (msg : string)
| ClientError (msg : string).

Definition M (A : Type) : Type := World -> (A + Exc) * World.

Definition ret {A} (a : A) : M A := fun w => (inl a, w).
Definition raise {A} (e : Exc) : M A := fun w => (inr e, w).
Definition bind {A B} (m : M A) (k : A -> M B) : M B :=
  fun w => match m w with
           | (inl a, w') => k a w'
           | (inr e, w') => (inr e, w')
           end.
(** [try: m except: h]; the effects of [m] before the raise stay. *)
Definition try_except {A} (m : M A) (h : Exc -> M A) : M A :=
  fun w => match m w with
           | (inl a, w') => (inl a, w')
           | (inr e, w') => h e w'
           end.

Notation "x <- m ;; k" := (bind m (fun x => k))
  (at level 61, m at next level, right associativity).
Notation "m ;;; k" := (bind m (fun _ => k))
  (at level 61, right associativity).

(** A result of pure code that may raise. *)
Definition Res (A : Type) : Type := (A + Exc)%type.

Definition lift {A} (r : Res A) : M A :=
  match r with inl a => ret a | inr e => raise e end.

Definition skip : M unit := ret tt.

(** [datetime.now(timezone.utc)]: every call reads a later instant. *)
Definition now : M timestamp :=
  fun w => (inl w.(clock),
            mkWorld w.(table) (w.(clock) + 1) w.(delivery_log)
              w.(deliver_script) w.(send_log) w.(queue) w.(send_script)).

(** ** Store adapter (src/storage/dynamodb.py) *)

Fixpoint table_put (e : Event) (t : list Event) : list Event :=
  match t with
  | [] => [e]
  | x :: t' => if String.eqb x.(event_id) e.(event_id) then e :: t'
               else x :: table_put e t'
  end.

Fixpoint table_get (eid : string) (t : list Event) : option Event :=
  match t with
  | [] => None
  | x :: t' => if String.eqb x.(event_id) eid then Some x else table_get eid t'
  end.

Definition set_table (t : list Event) (w : World) : World :=
  mkWorld t w.(clock) w.(delivery_log) w.(deliver_script) w.(send_log)
    w.(queue) w.(send_script).

(** [put_event] and [update_event]: both [put_item] the whole item. *)
Definition put_event (e : Event) : M unit :=
  fun w => (inl tt, set_table (table_put e w.(table)) w).

Definition update_event (e : Event) : M unit := put_event e.

Definition get_event (eid : string) : M (option Event) :=
  if String.eqb eid "" then raise (ValueError "event_id must be a non-empty string")
  else fun w => (inl (table_get eid w.(table)), w).

(** The key condition of IdempotencyIndex. *)
Definition idem_match (u key : string) (e : Event) : bool :=
  opt_str_eqb e.(user_id) (Some u) && opt_str_eqb e.(idempotency_key) (Some key).

(** [get_event_by_idempotency_key]: a query of IdempotencyIndex with
    [Limit=1]; without a user id no lookup is made. *)
Definition get_event_by_idempotency_key (uid : option string) (key : string)
  : M (option Event) :=
  if String.eqb key "" then raise (ValueError "idempotency_key must be a non-empty string")
  else match uid with
       | None => ret None
       | Some u => fun w =>
           (inl (find (idem_match u key) w.(table)), w)
       end.

Definition delete_event (eid : string) : M unit :=
  if String.eqb eid "" then raise (ValueError "event_id must be a non-empty string")
  else fun w => (inl tt, set_table (filter (fun x => negb (String.eqb x.(event_id) eid))
                                         w.(table)) w).

(** ** Delivery client and queue *)

Definition deliver_event (e : Event) : M bool :=
  fun w =>
    let '(o, rest) := match w.(deliver_script) with
                      | [] => (DeliverFail, [])
                      | o :: r => (o, r)
                      end in
    let w' := mkWorld w.(table) w.(clock) (w.(delivery_log) ++ [e]) rest
                w.(send_log) w.(queue) w.(send_script) in
    match o with
    | DeliverOk => (inl true, w')
    | DeliverFail => (inl false, w')
    | DeliverRaise => (inr (ClientError "delivery client error"), w')
    end.

(** [SQSClient.send_message(event_id, event_data)]. *)
Definition send_message (eid : string) (e : Event) : M unit :=
  fun w =>
    let '(ok, rest) := match w.(send_script) with
                       | [] => (true, [])
                       | b :: r => (b, r)
                       end in
    let log := w.(send_log) ++ [(eid, e)] in
    if ok then
      (inl tt, mkWorld w.(table) w.(clock) w.(delivery_log) w.(deliver_script)
                 log (w.(queue) ++ [(eid, e)]) rest)
    else
      (inr (ClientError "send_message failed"),
       mkWorld w.(table) w.(clock) w.(delivery_log) w.(deliver_script)
         log w.(queue) rest).

(** ** String checks of the models *)

Definition chars (s : string) : list ascii := list_ascii_of_string s.

Definition is_alpha (c : ascii) : bool :=
  let n := Ascii.nat_of_ascii c in
  (Nat.leb 65 n && Nat.leb n 90) || (Nat.leb 97 n && Nat.leb n 122).

Definition is_digit (c : ascii) : bool :=
  let n := Ascii.nat_of_ascii c in Nat.leb 48 n && Nat.leb n 57.

Definition nl : ascii := Ascii.ascii_of_nat 10.

(** Python's [$]: the end of the string, or just before a final newline. *)
Definition dollar_ok (p : list ascii -> bool) (l : list ascii) : bool :=
  p l || match rev l with
         | c :: r => Ascii.eqb c nl && p (rev r)
         | [] => false
         end.

(** [str.isspace] on one ASCII character. *)
Definition py_isspace (c : ascii) : bool :=
  let n := Ascii.nat_of_ascii c in
  (Nat.leb 9 n && Nat.leb n 13) || (Nat.leb 28 n && Nat.leb n 32).

(** [not s.strip()]. *)
Definition py_blank (s : string) : bool := forallb py_isspace (chars s).

(** [re.match(r'^evt_[a-z0-9]{12}$', event_id)] on an id already stripped
    by the request model. *)
Definition evt_id_ok (s : string) : bool :=
  let lower_or_digit c := let n := Ascii.nat_of_ascii c in
                          (Nat.leb 97 n && Nat.leb n 122) || is_digit c in
  dollar_ok (fun l => (Nat.eqb (length l) 16)
                      && String.prefix "evt_" (string_of_list_ascii l)
                      && forallb lower_or_digit (skipn 4 l)) (chars s).

(** Leading characters [str.strip()] removes. *)
Fixpoint lstrip_chars (l : list ascii) : list ascii :=
  match l with
  | c :: r => if py_isspace c then lstrip_chars r else l
  | [] => []
  end.

(** [str.strip()], which pydantic applies to a [str] field of a model
    configured with [str_strip_whitespace=True]. *)
Definition py_strip (s : string) : string :=
  string_of_list_ascii (rev (lstrip_chars (rev (lstrip_chars (chars s))))).

Definition is_lower (c : ascii) : bool :=
  let n := Ascii.nat_of_ascii c in Nat.leb 97 n && Nat.leb n 122.

(** [re.match(r'^[a-z0-9._]+$', v)] of [Event.validate_event_type]. *)
Definition event_type_chars_ok (s : string) : bool :=
  dollar_ok (fun l => negb (Nat.eqb (length l) 0)
                      && forallb (fun c => is_lower c || is_digit c
                                           || Ascii.eqb c "."%char
                                           || Ascii.eqb c "_"%char) l) (chars s).

(** ** Single-event handlers (src/handlers/events.py) *)

Record CreateEventRequest : Type := mkCreateEventRequest {
  req_event_type : string;
  req_payload : jdict;
  req_metadata : option jdict;
  req_idempotency_key : option string;
  req_user_id : option string
}.

(** The HTTP response: status code, the event it describes and its
    [message]. *)
Record EventResponse : Type := mkEventResponse {
  resp_code : Z;
  resp_event : Event;
  resp_message : string
}.

(** [Event(event_id=event_id, event_type=request.event_type,
    payload=request.payload, metadata=request.metadata, status="pending",
    created_at=..., delivered_at=None, delivery_attempts=0, user_id=user_id,
    idempotency_key=request.idempotency_key)] in [create_event]
    (src/models/event.py).  The model strips its [str] fields
    ([str_strip_whitespace=True]); then [event_id] must match
    [^evt_[a-z0-9]{12}$], [event_type] must have 1 to 100 characters and
    match [^[a-z0-9._]+$] ([validate_event_type]), and [payload] must be a
    non-empty dict ([validate_payload]).  A failure is pydantic's
    [ValidationError], a subclass of [ValueError]; its text here is the
    message of the failing check.  [payload] and [metadata] are passed as
    the request model (same configuration, same field types) left them. *)
Definition make_event (event_id event_type : string) (payload : jdict)
    (metadata : option jdict) (created_at : timestamp)
    (user_id idempotency_key : option string) : Res Event :=
  let eid := py_strip event_id in
  let etype := py_strip event_type in
  if negb (evt_id_ok eid) then
    inr (ValueError "event_id: String should match pattern '^evt_[a-z0-9]{12}$'")
  else if Nat.eqb (length (chars etype)) 0 || Nat.ltb 100 (length (chars etype)) then
    inr (ValueError "event_type: String should have between 1 and 100 characters")
  else if negb (event_type_chars_ok etype) then
    inr (ValueError ("event_type must contain only lowercase letters, numbers, "
                     ++ "dots, and underscores"))
  else if Nat.eqb (length payload) 0 then
    inr (ValueError "payload cannot be empty")
  else inl (mkEvent eid etype payload metadata Pending created_at None 0
              (option_map py_strip user_id) (option_map py_strip idempotency_key)).



(** The error mapping of [create_event]: [ValueError] is a 400, anything
    else a 500. *)
Definition create_error (e : Exc) : Exc :=
  match e with
  | ValueError m => HTTPException 400 ("Invalid event data: " ++ m)
  | _ => HTTPException 500 "Failed to create event"
  end.

(** [create_event].  [new_id] is the identifier drawn from [uuid4()];
    [auth_uid] is what [get_user_id_from_request] returned. *)
Definition create_event (new_id : string) (request : CreateEventRequest)
    (auth_uid : option string) : M EventResponse :=
  try_except (
    let uid := py_or auth_uid request.(req_user_id) in
    existing <- (if truthy request.(req_idempotency_key) then
                   match request.(req_idempotency_key) with
                   | Some k => get_event_by_idempotency_key uid k
                   | None => ret None
                   end
                 else ret None) ;;
    match existing with
    | Some ex =>
        ret (mkEventResponse 200 ex
               "Event already exists with this user_id and idempotency key")
    | None =>
        t0 <- now ;;
        event <- lift (make_event new_id request.(req_event_type) request.(req_payload)
                         request.(req_metadata) t0 uid request.(req_idempotency_key)) ;;
        put_event event ;;;
        final <- try_except (
                   delivery_success <- deliver_event event ;;
                   if delivery_success then
                     t1 <- now ;;
                     let ev1 := set_delivery_attempts 1
                                  (set_delivered_at (Some t1)
                                     (set_status Delivered event)) in
                     update_event ev1 ;;;
                     ret ev1
                   else
                     send_message new_id event ;;;
                     ret event)
                 (fun _ =>
                    try_except (send_message new_id event) (fun _ => skip) ;;;
                    ret event) ;;
        ret (mkEventResponse 201 final ("Event " ++ status_str final.(status)))
    end)
  (fun e => raise (create_error e)).

(** ** Update, acknowledge and replay (src/handlers/events.py) *)

(** A field of a PATCH body: absent, explicitly [null], or a value
    ([request.model_dump(exclude_unset=True)] tells the first two apart). *)
Inductive Provided (A : Type) : Type :=
| Unset
| SetNull
| SetTo (a : A).
Arguments Unset {A}. Arguments SetNull {A}. Arguments SetTo {A} a.

Record UpdateEventRequest : Type := mkUpdateEventRequest {
  upd_payload : Provided jdict;
  upd_metadata : Provided jdict;
  upd_idempotency_key : Provided string
}.

Definition is_set {A} (p : Provided A) : bool :=
  match p with Unset => false | _ => true end.

Definition provided_value {A} (p : Provided A) : option A :=
  match p with SetTo a => Some a | _ => None end.

(** [except HTTPException: raise / except Exception: 500]. *)
Definition reraise_http {A} (detail : string) (e : Exc) : M A :=
  match e with
  | HTTPException _ _ => raise e
  | _ => raise (HTTPException 500 detail)
  end.

(** [update_event] (PATCH /events/{event_id}).  Returns the response and
    whether redelivery was queued. *)
Definition update_event_h (eid : string) (request : UpdateEventRequest)
    (auth_uid : option string) : M EventResponse :=
  try_except (
    found <- get_event eid ;;
    match found with
    | None => raise (HTTPException 404 ("Event " ++ eid ++ " not found"))
    | Some event =>
      match auth_uid with
      | Some u => if negb (opt_str_eqb event.(user_id) (Some u))
                  then raise (HTTPException 403 "You can only update your own events")
                  else ret tt
      | None => ret tt
      end ;;;
      if negb (is_set request.(upd_payload) || is_set request.(upd_metadata)
               || is_set request.(upd_idempotency_key))
      then raise (HTTPException 400
             "At least one of payload, metadata, or idempotency_key must be provided")
      else
      ev1 <- match request.(upd_payload) with
             | Unset => ret event
             | SetTo p => ret (set_payload p event)
             | SetNull => raise (HTTPException 400 "payload cannot be null")
             end ;;
      let ev2 := if is_set request.(upd_metadata)
                 then set_metadata (provided_value request.(upd_metadata)) ev1
                 else ev1 in
      let ev3 := if is_set request.(upd_idempotency_key)
                 then set_idempotency_key (provided_value request.(upd_idempotency_key)) ev2
                 else ev2 in
      let should_redeliver :=
        match ev3.(status) with Delivered | Replayed => true | _ => false end in
      ev4 <- (if should_redeliver then
                let ev4 := set_delivered_at None (set_status Pending ev3) in
                try_except (send_message eid ev4) (fun _ => skip) ;;;
                ret ev4
              else ret ev3) ;;
      update_event ev4 ;;;
      ret (mkEventResponse 200 ev4
             (if should_redeliver then "Event updated and queued for redelivery"
              else "Event updated successfully"))
    end)
  (reraise_http "Failed to update event").

(** [acknowledge_event] (POST /events/{event_id}/acknowledge, 204). *)
Definition acknowledge_event (eid : string) : M unit :=
  try_except (
    found <- get_event eid ;;
    match found with
    | None => raise (HTTPException 404 ("Event " ++ eid ++ " not found"))
    | Some event =>
        t <- now ;;
        update_event (set_delivered_at (Some t) (set_status Delivered event))
    end)
  (reraise_http "Failed to acknowledge event").

(** Modelled from the spec: [ReplayEventRequest], imported from
    [models.request] but absent from the repository; §4.1 gives replay a
    reason and an optional target hint. *)
Record ReplayEventRequest : Type := mkReplayEventRequest {
  replay_reason : option string;
  workflow_id : option string
}.

Definition default_replay_request : ReplayEventRequest :=
  mkReplayEventRequest None None.

Fixpoint digits_aux (fuel : nat) (n : N) (acc : string) : string :=
  match fuel with
  | O => acc
  | S f =>
      let d := N.modulo n 10 in
      let acc' := String (Ascii.ascii_of_N (48 + d)) acc in
      if (n <? 10)%N then acc' else digits_aux f (N.div n 10) acc'
  end.

(** [datetime.isoformat()]; the model writes the instant in decimal. *)
Definition isoformat (t : timestamp) : string :=
  (if t <? 0 then "-" else "") ++ digits_aux 64 (Z.to_N (Z.abs t)) "".

(** [str(n)] on an int. *)
Definition py_str_int (n : Z) : string := isoformat n.

(** [d[k] = v] on a dict: in place when the key exists, appended
    otherwise. *)
Fixpoint dict_set {A} (k : string) (v : A) (d : list (string * A))
  : list (string * A) :=
  match d with
  | [] => [(k, v)]
  | (k', v') :: r => if String.eqb k k' then (k, v) :: r else (k', v') :: dict_set k v r
  end.

(** [d.update(u)]. *)
Definition dict_update {A} (d u : list (string * A)) : list (string * A) :=
  fold_left (fun acc '(k, v) => dict_set k v acc) u d.

Definition json_opt_str (s : option string) : json :=
  match s with Some x => JStr x | None => JNull end.

Definition replay_metadata (t : timestamp) (reason : json) (event : Event)
    (workflow : option string) : jdict :=
  [("is_replay"%string, JBool true); ("replayed_at"%string, JStr (isoformat t));
   ("replay_reason"%string, reason);
   ("original_created_at"%string, JStr (isoformat event.(created_at)));
   ("original_status"%string, JStr (status_str event.(status)))]
  ++ (if truthy workflow then [("target_workflow_id"%string, json_opt_str workflow)] else []).

(** [if event.metadata: event.metadata.update(rm) else: event.metadata = rm]. *)
Definition merge_metadata (md : option jdict) (rm : jdict) : option jdict :=
  match md with
  | Some ((_ :: _) as d) => Some (dict_update d rm)
  | _ => Some rm
  end.

Record ReplayResponse : Type := mkReplayResponse {
  rr_event_id : string;
  rr_status : Status;
  rr_delivered_at : option timestamp;
  rr_delivery_attempts : Z;
  rr_message : string
}.

(** [replay_event] (POST /replay/{event_id}). *)
Definition replay_event (eid : string) (request : option ReplayEventRequest)
  : M ReplayResponse :=
  try_except (
    found <- get_event eid ;;
    match found with
    | None => raise (HTTPException 404 ("Event " ++ eid ++ " not found"))
    | Some event =>
      if 10 <=? event.(delivery_attempts) then
        raise (HTTPException 400 "Event has exceeded maximum replay attempts (10)")
      else
      let req := match request with Some r => r | None => default_replay_request end in
      t <- now ;;
      let rm := replay_metadata t (json_opt_str req.(replay_reason)) event
                  req.(workflow_id) in
      let event := set_metadata (merge_metadata event.(metadata) rm) event in
      delivery_success <- deliver_event event ;;
      if delivery_success then
        t1 <- now ;;
        let ev := set_delivered_at (Some t1)
                    (set_delivery_attempts (event.(delivery_attempts) + 1)
                       (set_status Replayed event)) in
        update_event ev ;;;
        ret (mkReplayResponse ev.(event_id) Replayed ev.(delivered_at)
               ev.(delivery_attempts) "Event replayed successfully")
      else
        let ev := set_delivery_attempts (event.(delivery_attempts) + 1)
                    (set_status Pending event) in
        update_event ev ;;;
        send_message eid ev ;;;
        ret (mkReplayResponse ev.(event_id) Pending None ev.(delivery_attempts)
               "Event replay queued for retry")
    end)
  (reraise_http "Event replay failed").

(** ** Filter engine (src/utils/filters.py) *)

(** Python values reached by [_get_field_value]: JSON data, the scalar
    attributes of an [Event], and bound methods (only their name is kept). *)
Inductive pyval : Type :=
| VNone
| VBool (b : bool)
| VInt (z : Z)
| VFloat (q : Q)
| VStr (s : string)
| VList (l : list pyval)
| VDict (kvs : list (string * pyval))
| VTime (t : timestamp)
| VMethod (name : string).

Fixpoint pyval_of_json (j : json) : pyval :=
  match j with
  | JNull => VNone
  | JBool b => VBool b
  | JInt z => VInt z
  | JFloat q => VFloat q
  | JStr s => VStr s
  | JList l => VList (map pyval_of_json l)
  | JObj kvs => VDict (map (fun '(k, v) => (k, pyval_of_json v)) kvs)
  end.

Definition pyval_of_dict (d : jdict) : pyval := pyval_of_json (JObj d).

Definition opt_pyval {A} (f : A -> pyval) (o : option A) : pyval :=
  match o with Some a => f a | None => VNone end.

Definition in_names (n : string) (l : list string) : bool :=
  existsb (String.eqb n) l.

(** Methods of the [Event] model (its own and pydantic's [BaseModel]). *)
Definition event_methods : list string :=
  ["mark_delivered"; "mark_failed"; "increment_attempts"; "validate_event_type";
   "validate_payload"; "model_config"; "model_fields"; "model_computed_fields";
   "model_extra"; "model_fields_set"; "model_construct"; "model_copy";
   "model_dump"; "model_dump_json"; "model_json_schema"; "model_post_init";
   "model_rebuild"; "model_validate"; "model_validate_json";
   "model_validate_strings"; "model_parametrized_name"; "dict"; "json"; "copy";
   "parse_obj"; "parse_raw"; "parse_file"; "from_orm"; "construct"; "schema";
   "schema_json"; "validate"; "update_forward_refs"]%string.

Definition dict_methods : list string :=
  ["clear"; "copy"; "fromkeys"; "get"; "items"; "keys"; "pop"; "popitem";
   "setdefault"; "update"; "values"]%string.

Definition list_methods : list string :=
  ["append"; "clear"; "copy"; "count"; "extend"; "index"; "insert"; "pop";
   "remove"; "reverse"; "sort"]%string.

Definition str_methods : list string :=
  ["capitalize"; "casefold"; "center"; "count"; "encode"; "endswith";
   "expandtabs"; "find"; "format"; "format_map"; "index"; "isalnum"; "isalpha";
   "isascii"; "isdecimal"; "isdigit"; "isidentifier"; "islower"; "isnumeric";
   "isprintable"; "isspace"; "istitle"; "isupper"; "join"; "ljust"; "lower";
   "lstrip"; "maketrans"; "partition"; "removeprefix"; "removesuffix";
   "replace"; "rfind"; "rindex"; "rjust"; "rpartition"; "rsplit"; "rstrip";
   "split"; "splitlines"; "startswith"; "strip"; "swapcase"; "title";
   "translate"; "upper"; "zfill"]%string.

Definition number_methods : list string :=
  ["real"; "imag"; "conjugate"; "numerator"; "denominator"; "bit_length";
   "bit_count"; "to_bytes"; "from_bytes"; "as_integer_ratio"; "is_integer";
   "hex"; "fromhex"]%string.

Definition datetime_methods : list string :=
  ["year"; "month"; "day"; "hour"; "minute"; "second"; "microsecond";
   "tzinfo"; "fold"; "date"; "time"; "timetz"; "timestamp"; "isoformat";
   "replace"; "astimezone"; "utcoffset"; "weekday"; "isoweekday";
   "isocalendar"; "strftime"; "ctime"; "timetuple"; "utctimetuple"; "dst";
   "tzname"; "toordinal"]%string.

(** [hasattr(current, part)] / [getattr(current, part)] on an [Event]:
    its ten fields, or one of its methods.  Dunder attributes are left out. *)
Definition event_attr (e : Event) (name : string) : option pyval :=
  if String.eqb name "event_id" then Some (VStr e.(event_id))
  else if String.eqb name "event_type" then Some (VStr e.(event_type))
  else if String.eqb name "payload" then Some (pyval_of_dict e.(payload))
  else if String.eqb name "metadata" then Some (opt_pyval pyval_of_dict e.(metadata))
  else if String.eqb name "status" then Some (VStr (status_str e.(status)))
  else if String.eqb name "created_at" then Some (VTime e.(created_at))
  else if String.eqb name "delivered_at" then Some (opt_pyval VTime e.(delivered_at))
  else if String.eqb name "delivery_attempts" then Some (VInt e.(delivery_attempts))
  else if String.eqb name "user_id" then Some (opt_pyval VStr e.(user_id))
  else if String.eqb name "idempotency_key" then Some (opt_pyval VStr e.(idempotency_key))
  else if in_names name event_methods then Some (VMethod name)
  else None.

(** [hasattr]/[getattr] on the other values. *)
Definition value_attr (v : pyval) (name : string) : option pyval :=
  let m l := if in_names name l then Some (VMethod name) else None in
  match v with
  | VNone | VMethod _ => None
  | VBool _ | VInt _ | VFloat _ => m number_methods
  | VStr _ => m str_methods
  | VList _ => m list_methods
  | VDict _ => m dict_methods
  | VTime _ => m datetime_methods
  end.

Fixpoint dict_get {A} (k : string) (kvs : list (string * A)) : option A :=
  match kvs with
  | [] => None
  | (k', v) :: r => if String.eqb k k' then Some v else dict_get k r
  end.

(** [field.split('.')]. *)
Fixpoint split_dot_aux (s : string) (acc : string) : list string :=
  match s with
  | EmptyString => [acc]
  | String c r =>
      if Ascii.eqb c "."%char then acc :: split_dot_aux r EmptyString
      else split_dot_aux r (acc ++ String c EmptyString)
  end.

Definition split_dot (s : string) : list string := split_dot_aux s EmptyString.

(** The loop of [_get_field_value] after its first step. *)
Fixpoint walk_parts (cur : pyval) (parts : list string) : pyval :=
  match parts with
  | [] => cur
  | p :: ps =>
      match value_attr cur p with
      | Some v => walk_parts v ps
      | None =>
          match cur with
          | VDict kvs => match dict_get p kvs with
                         | Some v => walk_parts v ps
                         | None => VNone
                         end
          | _ => VNone
          end
      end
  end.

(** [_get_field_value(event, field)]; [None] is [VNone]. *)
Definition _get_field_value (e : Event) (field : string) : pyval :=
  match split_dot field with
  | [] => VStr "" (* not reached: split always yields a part *)
  | p :: ps => match event_attr e p with
               | Some v => walk_parts v ps
               | None => VNone
               end
  end.

Inductive FieldType : Type := FJson | FDate | FDirect.

Record EventFilter : Type := mkEventFilter {
  f_field : string;
  f_operator : string;
  f_value : string  (* query parameter values are strings *)
}.

Definition starts_with (pre s : string) : bool := String.prefix pre s.

Fixpoint str_contains (needle hay : string) : bool :=
  String.prefix needle hay ||
  match hay with EmptyString => false | String _ r => str_contains needle r end.

(** [_determine_field_type]. *)
Definition field_type (field : string) : FieldType :=
  if starts_with "payload." field || starts_with "metadata." field then FJson
  else if in_names field ["created_at"; "delivered_at"; "created_after";
                          "created_before"; "delivered_after";
                          "delivered_before"]%string then FDate
  else FDirect.

(** Python's ordering comparisons of a value with the [str] filter value:
    two strings compare lexicographically, anything else raises
    [TypeError]. *)
Definition py_order (op : string) (v : pyval) (value : string) : Res bool :=
  match v with
  | VStr s =>
      let c := String.compare s value in
      if String.eqb op "gt" then inl (match c with Gt => true | _ => false end)
      else if String.eqb op "gte" then inl (match c with Lt => false | _ => true end)
      else if String.eqb op "lt" then inl (match c with Lt => true | _ => false end)
      else inl (match c with Gt => false | _ => true end)
  | _ => inr (TypeError "'>=' not supported between instances")
  end.

(** [field_value == value] for a [str] value. *)
Definition py_eq_str (v : pyval) (value : string) : bool :=
  match v with VStr s => String.eqb s value | _ => false end.

(** [_event_matches_filter]. *)
Definition _event_matches_filter (e : Event) (f : EventFilter) : Res bool :=
  let op := f.(f_operator) in
  let value := f.(f_value) in
  match _get_field_value e f.(f_field) with
  | VNone => inl false
  | fv =>
      if String.eqb op "eq" then inl (py_eq_str fv value)
      else if String.eqb op "ne" then inl (negb (py_eq_str fv value))
      else if in_names op ["gt"; "gte"; "lt"; "lte"]%string then py_order op fv value
      else if String.eqb op "contains" then
        inl (match fv with VStr s => str_contains value s | _ => false end)
      else if String.eqb op "startswith" then
        inl (match fv with VStr s => starts_with value s | _ => false end)
      else inl false
  end.

(** [_event_matches_filters]: the filters in dict order, stopping at the
    first non-match. *)
Fixpoint _event_matches_filters (e : Event) (fs : list EventFilter) : Res bool :=
  match fs with
  | [] => inl true
  | f :: r => match _event_matches_filter e f with
              | inl true => _event_matches_filters e r
              | inl false => inl false
              | inr x => inr x
              end
  end.

(** [apply_filters_to_events]. *)
Definition apply_filters_to_events (events : list Event) (fs : list EventFilter)
  : Res (list Event) :=
  match fs with
  | [] => inl events
  | _ =>
      (fix go (l : list Event) : Res (list Event) :=
         match l with
         | [] => inl []
         | e :: r => match _event_matches_filters e fs with
                     | inr x => inr x
                     | inl b => match go r with
                                | inr x => inr x
                                | inl r' => inl (if b then e :: r' else r')
                                end
                     end
         end) events
  end.

Definition result_value {A} (r : A + Exc) : option A :=
  match r with inl a => Some a | inr _ => None end.

(** ** Query parameters and listing *)

(** [re.match(r'^[a-zA-Z_][a-zA-Z0-9_.]*$', field)]. *)
Definition field_name_ok (field : string) : bool :=
  dollar_ok (fun l => match l with
                      | [] => false
                      | c :: r => (is_alpha c || Ascii.eqb c "_"%char)
                                  && forallb (fun d => is_alpha d || is_digit d
                                                       || Ascii.eqb d "_"%char
                                                       || Ascii.eqb d "."%char) r
                      end) (chars field).

Fixpoint split_at_char (c : ascii) (l : list ascii) : option (list ascii * list ascii) :=
  match l with
  | [] => None
  | d :: r => if Ascii.eqb d c then Some ([], r)
              else match split_at_char c r with
                   | Some (a, b) => Some (d :: a, b)
                   | None => None
                   end
  end.

Definition no_char (c : ascii) (l : list ascii) : bool :=
  forallb (fun d => negb (Ascii.eqb d c)) l.

(** [re.match(r'^([^[\]]+)\[([^[\]]+)\]$', param_key)]: the two groups. *)
Definition bracket_match (key : string) : option (string * string) :=
  match split_at_char "["%char (chars key) with
  | Some (f, rest) =>
      if negb (Nat.eqb (length f) 0) && no_char "]"%char f then
        match split_at_char "]"%char rest with
        | Some (o, tl) =>
            if negb (Nat.eqb (length o) 0) && no_char "["%char o
               && (match tl with [] => true | [c] => Ascii.eqb c nl | _ => false end)
            then Some (string_of_list_ascii f, string_of_list_ascii o)
            else None
        | None => None
        end
      else None
  | None => None
  end.

Definition valid_operators : list string :=
  ["eq"; "gt"; "gte"; "lt"; "lte"; "ne"; "contains"; "startswith"]%string.

(** [_parse_param_key]. *)
Definition _parse_param_key (key : string) : Res (string * string) :=
  let parsed := match bracket_match key with
                | Some (f, op) => if in_names op valid_operators then inl (f, op)
                                  else inr (ValueError "Invalid operator")
                | None => inl (key, "eq"%string)
                end in
  match parsed with
  | inr e => inr e
  | inl (f, op) =>
      if String.eqb f "" then inr (ValueError "Field name must be a non-empty string")
      else if negb (field_name_ok f)
      then inr (ValueError "Field name contains invalid characters")
      else inl (f, op)
  end.

(** [filters[field] = filter_obj]: a dict keyed by field. *)
Fixpoint filters_set (f : EventFilter) (fs : list EventFilter) : list EventFilter :=
  match fs with
  | [] => [f]
  | g :: r => if String.eqb g.(f_field) f.(f_field) then f :: r else g :: filters_set f r
  end.

(** [dict(request.query_params)]: one value per key, in order. *)
Definition QueryParams := list (string * string).

(** [parse_filter_params]; keys that fail to parse are skipped. *)
Definition parse_filter_params (qp : QueryParams) : list EventFilter :=
  fold_left (fun acc '(k, v) =>
               if in_names k ["status"; "limit"; "cursor"]%string then acc
               else if String.eqb v "" then acc
               else match _parse_param_key k with
                    | inl (f, op) => filters_set (mkEventFilter f op v) acc
                    | inr _ => acc
                    end) qp [].

Definition qp_get (k : string) (qp : QueryParams) : option string := dict_get k qp.

Definition qp_has (k : string) (qp : QueryParams) : bool :=
  match qp_get k qp with Some _ => true | None => false end.

(** [list.sort(key=lambda e: e.created_at, reverse=True)], stable. *)
Fixpoint insert_desc (e : Event) (l : list Event) : list Event :=
  match l with
  | [] => [e]
  | x :: r => if e.(created_at) <=? x.(created_at) then x :: insert_desc e r
              else e :: l
  end.

Definition sort_desc (l : list Event) : list Event :=
  fold_left (fun acc e => insert_desc e acc) l [].

(** [DynamoDBClient.list_events] without a cursor.  A status query reads
    StatusIndex newest first; a scan reads table order and then sorts. *)
Definition list_events (st : option string) (limit : Z) (fs : list EventFilter)
  : M (list Event) :=
  if (limit <=? 0) || (100 <? limit) then raise (ValueError "limit must be between 1 and 100")
  else fun w =>
    let has_json := existsb (fun f => match field_type f.(f_field) with
                                      | FJson => true | _ => false end) fs in
    let fetch := Z.to_nat (if has_json then Z.min (limit * 3) 300 else limit) in
    let events :=
      if truthy st then
        firstn fetch (sort_desc (filter (fun e => opt_str_eqb (Some (status_str e.(status))) st)
                                   w.(table)))
      else sort_desc (firstn fetch w.(table)) in
    match fs with
    | [] => (inl events, w)
    | _ => match apply_filters_to_events events fs with
           | inl r => (inl (firstn (Z.to_nat limit) r), w)
           | inr x => (inr x, w)
           end
    end.

(** ** Batch helpers (src/utils/batch_helpers.py) *)

(** [range(start, stop, step)] for [step > 0]: the [start + step * i]
    below [stop], [max(0, ceil((stop - start) / step))] of them. *)
Definition py_range_pos (start stop step : Z) : list Z :=
  map (fun i => start + step * Z.of_nat i)
    (seq 0 (Z.to_nat ((stop - start + step - 1) / step))).

(** [items[i:j]] for [0 <= i <= j]. *)
Definition py_slice {A} (items : list A) (i j : Z) : list A :=
  firstn (Z.to_nat j - Z.to_nat i) (skipn (Z.to_nat i) items).

(** [chunk_list(items, chunk_size)]. *)
Definition chunk_list {A} (items : list A) (chunk_size : Z) : Res (list (list A)) :=
  if chunk_size <=? 0 then inr (ValueError "chunk_size must be positive")
  else inl (map (fun i => py_slice items i (i + chunk_size))
              (py_range_pos 0 (Z.of_nat (length items)) chunk_size)).

(** [validate_batch_size(items, max_size)]. *)
Definition validate_batch_size {A} (items : list A) (max_size : Z) : Res unit :=
  if Z.of_nat (length items) >? max_size
  then inr (ValueError ("batch size cannot exceed " ++ py_str_int max_size ++ " items"))
  else inl tt.

(** ** Batch operations *)

(** [user_id is not None and event.user_id != user_id] is the refusal test. *)
Definition owner_ok (auth_uid : option string) (e : Event) : bool :=
  match auth_uid with
  | None => true
  | Some u => opt_str_eqb e.(user_id) (Some u)
  end.

(** A Python [set] of strings as a duplicate-free list, kept in the order of
    insertion; only membership is read from it, except through
    [set_order]. *)
Definition set_add (x : string) (s : list string) : list string :=
  if in_names x s then s else s ++ [x].

Definition set_update (xs : list string) (s : list string) : list string :=
  fold_left (fun acc x => set_add x acc) xs s.


(** [len(None)] in an [except] clause: the [TypeError] it raises leaves the
    handler, past its other [except] clauses, and FastAPI answers 500. *)
Definition len_none_error : Exc := TypeError "object of type 'NoneType' has no len()".

(** [str(e)] on the exceptions the batch loops can meet. *)
Definition exc_str (e : Exc) : string :=
  match e with
  | HTTPException c d => py_str_int c ++ ": " ++ d
  | ValueError m | TypeError m | ClientError m => m
  end.

(** [DynamoDBClient.batch_get_events]: the found events (chunks of 25 read in
    turn, which does not change the result). *)
Definition batch_get_events (ids : list string) : M (list Event) :=
  match ids with
  | [] => ret []
  | _ =>
    if 100 <? Z.of_nat (length ids) then raise (ValueError "batch size cannot exceed 100 events")
    else if existsb py_blank ids then raise (ValueError "all event_ids must be non-empty strings")
    else fun w => (inl (flat_map (fun i => match table_get i w.(table) with
                                          | Some e => [e]
                                          | None => []
                                          end) ids), w)
  end.


(** The id collection of [batch_delete_events] and [batch_replay_events]
    (the two handlers share this code): the ids of the filter-matched events
    the caller owns, then the body ids, into one set.  The flag is
    [has_filters]. *)
Definition collect_event_ids (auth_uid : option string) (qp : QueryParams)
    (body : option (list string)) : M (bool * list string) :=
  let filters := parse_filter_params qp in
  let has_filters := negb (Nat.eqb (length filters) 0) || qp_has "status" qp in
  matching <- (if has_filters then list_events (qp_get "status" qp) 100 filters
               else ret []) ;;
  let s := fold_left (fun acc e =>
                        if negb (owner_ok auth_uid e) then acc
                        else if String.eqb e.(event_id) "" then acc
                        else set_add e.(event_id) acc) matching [] in
  let s := match body with
           | Some ((_ :: _) as ids) => set_update ids s
           | _ => s
           end in
  ret (has_filters, s).

(** Request-model validation of a list field declared with [min_length=1,
    max_length=100]: FastAPI answers 422 before the handler runs. *)
Definition list_field_bounds {A} (items : list A) : Res unit :=
  if Nat.eqb (length items) 0 || (100 <? Z.of_nat (length items))
  then inr (HTTPException 422 "Unprocessable Entity")
  else inl tt.

(** [BatchDeleteEventRequest] validation of [event_ids]. *)
Definition batch_delete_request_ok (body : option (list string)) : Res unit :=
  match body with
  | None => inl tt
  | Some ids =>
    match list_field_bounds ids with
    | inr e => inr e
    | inl _ => if forallb evt_id_ok ids then inl tt
               else inr (HTTPException 422 "Unprocessable Entity")
    end
  end.

(** [batch_delete_events] up to its per-item loop: the ids the loop
    enumerates, after the ownership read of [batch_get_events].  Both
    [except] clauses log [len(getattr(request, 'event_ids', []))], which
    raises when the body has no [event_ids]. *)
Definition batch_delete_event_ids (set_order : list string -> list string)
    (auth_uid : option string) (qp : QueryParams)
    (body : option (list string)) : M (list string) :=
  lift (batch_delete_request_ok body) ;;;
  try_except (
    hs <- collect_event_ids auth_uid qp body ;;
    let '(has_filters, s) := hs in
    match s with
    | [] => if has_filters then ret []
            else raise (ValueError ("Either provide event_ids in the request body or use query parameter filters "
                                    ++ "(e.g., ?payload.field=value or ?status=pending)"))
    | _ =>
      let event_ids_list := firstn 100 (set_order s) in
      batch_get_events event_ids_list ;;;
      ret event_ids_list
    end)
    (fun e => match body with
              | None => raise len_none_error
              | Some _ =>
                match e with
                | ValueError m => raise (HTTPException 400 ("Invalid batch request: " ++ m))
                | _ => raise (HTTPException 500 "Failed to process batch delete request")
                end
              end).


Record BatchUpdateEventItem : Type := mkBatchUpdateEventItem {
  bui_event_id : string;
  bui_payload : option jdict;
  bui_metadata : option jdict;
  bui_idempotency_key : option string
}.

Record BatchUpdateEventRequest : Type := mkBatchUpdateEventRequest {
  bur_events : option (list BatchUpdateEventItem);
  bur_payload : option jdict;
  bur_metadata : option jdict;
  bur_idempotency_key : option string
}.

(** [BatchUpdateEventRequest] validation: the bounds of [events], then
    [validate_mode], which asks for [events] or one of the filter-mode
    fields.  FastAPI answers 422 before the handler runs. *)
Definition batch_update_request_ok (request : BatchUpdateEventRequest) : Res unit :=
  match request.(bur_events) with
  | Some items => list_field_bounds items
  | None =>
    match request.(bur_payload), request.(bur_metadata), request.(bur_idempotency_key) with
    | None, None, None => inr (HTTPException 422 "Unprocessable Entity")
    | _, _, _ => inl tt
    end
  end.

(** [batch_update_events] up to its per-item loop: the items the loop
    enumerates.  In filter mode a [BatchUpdateEventItem] is built for each
    matched event; its validation passes for an event read back from the
    store (whose id passed the [Event] pattern), and is left out.  Both
    [except] clauses log [len(getattr(request, 'events', []))], which raises
    in filter mode. *)
Definition batch_update_items (auth_uid : option string) (qp : QueryParams)
    (request : BatchUpdateEventRequest) : M (list BatchUpdateEventItem) :=
  lift (batch_update_request_ok request) ;;;
  try_except (
    match request.(bur_events) with
    | None =>
      let filters := parse_filter_params qp in
      if Nat.eqb (length filters) 0 && negb (qp_has "status" qp) then
        raise (ValueError ("Filter mode requires at least one query parameter filter "
                           ++ "(e.g., ?payload.field=value or ?status=pending)"))
      else
        matching <- list_events (qp_get "status" qp) 100 filters ;;
        ret (map (fun e => mkBatchUpdateEventItem e.(event_id) request.(bur_payload)
                             request.(bur_metadata) request.(bur_idempotency_key))
                 (filter (owner_ok auth_uid) matching))
    | Some batch_items =>
      lift (validate_batch_size batch_items 100) ;;;
      ret batch_items
    end)
    (fun e => match request.(bur_events) with
              | None => raise len_none_error
              | Some _ =>
                match e with
                | ValueError m => raise (HTTPException 400 ("Invalid batch request: " ++ m))
                | _ => raise (HTTPException 500 "Failed to process batch update request")
                end
              end).


Record BatchItemError : Type := mkBatchItemError {
  err_code : string;
  err_message : string
}.

(** Modelled from the spec: [BatchReplayItemResult] is absent from src/
    (models/response.py); its fields are those the handler passes. *)
Record BatchReplayItemResult : Type := mkBatchReplayItemResult {
  bri_index : Z;
  bri_success : bool;
  bri_event_id : string;
  bri_status : Status;
  bri_message : string;
  bri_error : option BatchItemError
}.


Definition replay_item_error (idx : Z) (eid code msg : string) : BatchReplayItemResult :=
  mkBatchReplayItemResult idx false eid Failed msg (Some (mkBatchItemError code msg)).

(** One iteration of the loop of [batch_replay_events]. *)
Definition replay_item (auth_uid : option string) (by_id : list (string * Event))
    (idx : Z) (eid : string) : M BatchReplayItemResult :=
  try_except (
    match dict_get eid by_id with
    | None => ret (replay_item_error idx eid "NOT_FOUND" "Event not found")
    | Some event =>
      if negb (owner_ok auth_uid event) then
        ret (replay_item_error idx eid "FORBIDDEN" "You can only replay your own events")
      else if 10 <=? event.(delivery_attempts) then
        ret (replay_item_error idx eid "MAX_ATTEMPTS_EXCEEDED"
               "Event has exceeded maximum replay attempts (10)")
      else
        t <- now ;;
        let rm := replay_metadata t (JStr "batch_replay") event None in
        let event := set_metadata (merge_metadata event.(metadata) rm) event in
        delivery_success <- deliver_event event ;;
        if delivery_success then
          t1 <- now ;;
          let ev := set_delivered_at (Some t1)
                      (set_delivery_attempts (event.(delivery_attempts) + 1)
                         (set_status Replayed event)) in
          update_event ev ;;;
          ret (mkBatchReplayItemResult idx true eid Replayed "Event replayed successfully" None)
        else
          let ev := set_delivery_attempts (event.(delivery_attempts) + 1)
                      (set_status Pending event) in
          update_event ev ;;;
          send_message ev.(event_id) ev ;;;
          ret (mkBatchReplayItemResult idx true eid Pending "Event replay queued for retry" None)
    end)
    (fun e => ret (mkBatchReplayItemResult idx false eid Failed ("Replay failed: " ++ exc_str e)
                     (Some (mkBatchItemError "REPLAY_FAILED" (exc_str e))))).




(** ** Reading and deleting handlers (src/handlers/events.py, src/handlers/inbox.py) *)

Definition retrieved (e : Event) : EventResponse :=
  mkEventResponse 200 e "Event retrieved successfully".

(** [get_event] (GET /events/{event_id}). *)
Definition get_event_h (eid : string) : M EventResponse :=
  found <- try_except (get_event eid)
             (fun _ => raise (HTTPException 500 "Failed to retrieve event")) ;;
  match found with
  | None => raise (HTTPException 404 ("Event " ++ eid ++ " not found"))
  | Some event => ret (retrieved event)
  end.

(** [list_events] (GET /events) without a cursor; [qp] is
    [dict(request.query_params)]. *)
Definition list_events_h (status : option string) (limit : Z) (qp : QueryParams)
  : M (list EventResponse) :=
  if 100 <? limit then raise (HTTPException 400 "Limit cannot exceed 100")
  else
    let filters := parse_filter_params qp in
    events <- try_except (list_events status limit filters)
                (fun _ => raise (HTTPException 500 "Failed to list events")) ;;
    ret (map retrieved events).

(** The [EventResponse] of the inbox, built without [user_id] and
    [idempotency_key]. *)
Definition inbox_response (e : Event) : EventResponse :=
  mkEventResponse 200
    (mkEvent e.(event_id) e.(event_type) e.(payload) e.(metadata) e.(status)
       e.(created_at) e.(delivered_at) e.(delivery_attempts) None None)
    "Event retrieved successfully".

(** [get_inbox] (GET /inbox); the metrics call is best effort and left out. *)
Definition get_inbox (limit : Z) : M (list EventResponse) :=
  if 100 <? limit then raise (HTTPException 400 "Limit cannot exceed 100")
  else
    try_except (pending_events <- list_events (Some "pending"%string) limit [] ;;
                ret (map inbox_response pending_events))
      (fun _ => raise (HTTPException 500 "Failed to retrieve inbox")).

(** [delete_event] (DELETE /events/{event_id}): the status code of the
    answer. *)
Definition delete_event_h (eid : string) (auth_uid : option string) : M Z :=
  try_except (
    found <- get_event eid ;;
    match found with
    | None => ret 204
    | Some event =>
      if negb (owner_ok auth_uid event)
      then raise (HTTPException 403 "You can only delete your own events")
      else delete_event eid ;;; ret 200
    end)
  (reraise_http "Failed to delete event").

(** ** [merge_batch_results] (src/utils/batch_helpers.py) *)

Inductive MergeError : Type := MergeTypeError | MergeAttributeError.

Section MergeBatchResults.

(** Python's [a + b] when one of the two numbers is a [float]: IEEE-754
    arithmetic, left abstract. *)
Variable float_add : (Z + Q) -> (Z + Q) -> Q.

(** The number a [bool], [int] or [float] stands for ([bool] is an [int]). *)
Definition py_num (v : pyval) : option (Z + Q) :=
  match v with
  | VBool b => Some (inl (if b then 1 else 0))
  | VInt z => Some (inl z)
  | VFloat q => Some (inr q)
  | _ => None
  end.

(** [a + b] with [b] a number. *)
Definition py_add_num (a b : pyval) : (pyval + MergeError) :=
  match py_num a, py_num b with
  | Some (inl x), Some (inl y) => inl (VInt (x + y))
  | Some x, Some y => inl (VFloat (float_add x y))
  | _, _ => inr MergeTypeError
  end.

(** One [key, value] of the inner loop. *)
Definition merge_entry (merged : list (string * pyval)) (kv : string * pyval)
  : (list (string * pyval) + MergeError) :=
  let '(key, value) := kv in
  match value with
  | VList l =>
      match dict_get key merged with
      | None => inl (dict_set key (VList l) merged)
      | Some (VList m) => inl (dict_set key (VList (m ++ l)) merged)
      | Some _ => inr MergeAttributeError
      end
  | VBool _ | VInt _ | VFloat _ =>
      let cur := match dict_get key merged with Some v => v | None => VInt 0 end in
      match py_add_num cur value with
      | inl v => inl (dict_set key v merged)
      | inr e => inr e
      end
  | _ => inl (dict_set key value merged)
  end.

Fixpoint merge_entries (merged : list (string * pyval)) (kvs : list (string * pyval))
  : (list (string * pyval) + MergeError) :=
  match kvs with
  | [] => inl merged
  | kv :: rest => match merge_entry merged kv with
                  | inl m => merge_entries m rest
                  | inr e => inr e
                  end
  end.

Fixpoint merge_results (merged : list (string * pyval))
    (results : list (list (string * pyval))) : (list (string * pyval) + MergeError) :=
  match results with
  | [] => inl merged
  | r :: rest => match merge_entries merged r with
                 | inl m => merge_results m rest
                 | inr e => inr e
                 end
  end.

(** [merge_batch_results(chunk_results)]; a result dict is an association
    list in insertion order. *)
Definition merge_batch_results (chunk_results : list (list (string * pyval)))
  : (list (string * pyval) + MergeError) :=
  match chunk_results with
  | [] => inl []
  | _ => merge_results [] chunk_results
  end.

End MergeBatchResults.

(** ** Batch writes of the store (src/storage/dynamodb.py) *)

(** [list.remove(x)] on a list known to hold [x]: drops its first
    occurrence. *)
Fixpoint py_remove (x : string) (l : list string) : list string :=
  match l with
  | [] => []
  | y :: r => if String.eqb y x then r else y :: py_remove x r
  end.

(** What [batch_write_item] does with one chunk: it answers with the ids of
    the items it returns in [UnprocessedItems] (the others are written), or
    it raises. *)
Inductive WriteOutcome : Type :=
| WriteOk (unprocessed : list string)
| WriteRaise (e : Exc).

(** [processed_event_ids], after the removal of the unprocessed ids. *)
Definition processed_ids (chunk unprocessed : list string) : list string :=
  fold_left (fun ids u => if in_names u ids then py_remove u ids else ids) unprocessed chunk.

(** One chunk of [batch_delete_events]: the ids it adds to
    [successful_event_ids] and to [failed_event_ids]. *)
Definition delete_chunk (o : WriteOutcome) (chunk : list string) : M (list string * list string) :=
  match o with
  | WriteRaise _ => ret ([], chunk)
  | WriteOk unprocessed =>
      let processed := processed_ids chunk unprocessed in
      fun w => (inl (processed, unprocessed),
                set_table (filter (fun x => negb (in_names x.(event_id) processed)) w.(table)) w)
  end.

(** [for chunk_idx, chunk in enumerate(chunks)]; the [i]-th outcome answers
    the [i]-th chunk, and a chunk past the script is written in full. *)
Fixpoint delete_chunks (outcomes : list WriteOutcome) (chunks : list (list string))
  : M (list string * list string) :=
  match chunks with
  | [] => ret ([], [])
  | c :: rest =>
      let '(o, os) := match outcomes with
                      | [] => (WriteOk [], [])
                      | o :: os => (o, os)
                      end in
      r <- delete_chunk o c ;;
      rs <- delete_chunks os rest ;;
      ret (fst r ++ fst rs, snd r ++ snd rs)
  end.

(** [DynamoDBClient.batch_delete_events]: successful and failed ids. *)
Definition batch_delete_events (outcomes : list WriteOutcome) (event_ids : list string)
  : M (list string * list string) :=
  match event_ids with
  | [] => ret ([], [])
  | _ =>
    if 100 <? Z.of_nat (length event_ids) then raise (ValueError "batch size cannot exceed 100 events")
    else if existsb py_blank event_ids then raise (ValueError "all event_ids must be non-empty strings")
    else match chunk_list event_ids 25 with
         | inl chunks => delete_chunks outcomes chunks
         | inr e => raise e
         end
  end.

(** The [reason] of a failed item when the chunk raised. *)
Definition write_error_reason (e : Exc) : string :=
  match e with
  | ClientError m => "DynamoDB error: " ++ m
  | _ => "Unexpected error: " ++ exc_str e
  end.

(** One chunk of [batch_put_events]: the ids it adds to
    [successful_event_ids] and the [(event_id, reason)] it adds to
    [failed_items]; the chunk's events whose id is processed are written. *)
Definition put_chunk (o : WriteOutcome) (chunk : list Event)
  : M (list string * list (string * string)) :=
  match o with
  | WriteRaise e => ret ([], map (fun ev => (ev.(event_id), write_error_reason e)) chunk)
  | WriteOk unprocessed =>
      let processed := processed_ids (map event_id chunk) unprocessed in
      fun w => (inl (processed, map (fun u => (u, "Unprocessed by DynamoDB"%string)) unprocessed),
                set_table (fold_left (fun t ev => table_put ev t)
                             (filter (fun ev => in_names ev.(event_id) processed) chunk)
                             w.(table)) w)
  end.

Fixpoint put_chunks (outcomes : list WriteOutcome) (chunks : list (list Event))
  : M (list string * list (string * string)) :=
  match chunks with
  | [] => ret ([], [])
  | c :: rest =>
      let '(o, os) := match outcomes with
                      | [] => (WriteOk [], [])
                      | o :: os => (o, os)
                      end in
      r <- put_chunk o c ;;
      rs <- put_chunks os rest ;;
      ret (fst r ++ fst rs, snd r ++ snd rs)
  end.

(** [DynamoDBClient.batch_put_events]: successful ids and failed items. *)
Definition batch_put_events (outcomes : list WriteOutcome) (events : list Event)
  : M (list string * list (string * string)) :=
  match events with
  | [] => ret ([], [])
  | _ =>
    if 100 <? Z.of_nat (length events) then raise (ValueError "batch size cannot exceed 100 events")
    else match chunk_list events 25 with
         | inl chunks => put_chunks outcomes chunks
         | inr e => raise e
         end
  end.

(** ** Sample data (the fixtures of tests/integration/test_event_filtering.py) *)

Module Samples.
Local Open Scope string_scope.

Definition w0 : World := mkWorld [] 1000 [] [] [] [] [].

Definition order_request : CreateEventRequest :=
  mkCreateEventRequest "order.created" [("order_id", JStr "12345"); ("amount", JFloat (9999 # 100))]
    None (Some "order-12345") (Some "user-1").

Definition sample_event (eid etype : string) (amount : Q) (st : Status)
    (t : timestamp) : Event :=
  mkEvent eid etype [("order_id", JStr "12345"); ("amount", JFloat amount)]
    (Some [("source", JStr "ecommerce")]) st t None 0 None None.

Definition evt_order_created : Event :=
  sample_event "evt_test123456" "order.created" (9999 # 100) Delivered 1705311001.
Definition evt_user_created : Event :=
  sample_event "evt_test789012" "user.created" (15000 # 100) Pending 1705237200.
Definition evt_order_shipped : Event :=
  sample_event "evt_test345678" "order.shipped" (7550 # 100) Failed 1705223730.

Definition sample_events : list Event :=
  [evt_order_created; evt_user_created; evt_order_shipped].

Definition w_push_fails : World := mkWorld [] 1000 [] [DeliverFail] [] [] [].

(** The first [send_message] raises, the second is accepted. *)
Definition w_send_fails_once : World :=
  mkWorld [] 1000 [] [DeliverFail] [] [] [false; true].

Definition evt_delivered_once : Event :=
  mkEvent "evt_delivered01" "order.created" [("order_id", JStr "12345")] None
    Delivered 1705311001 (Some 1705311002) 1 (Some "user-1") None.

Definition w_replay_push_fails : World :=
  mkWorld [evt_delivered_once] 2000 [] [DeliverFail] [] [] [].





Definition qp_pending : QueryParams := [("status", "pending")].

Definition body_extra : option (list string) := Some ["evt_abc123xyz456"].

(** An event whose replay budget is spent. *)
Definition evt_exhausted : Event :=
  mkEvent "evt_exhausted001" "order.created" [("order_id", JStr "777")]
    (Some [("source", JStr "checkout")]) Failed 1705311001 None 10 (Some "user-1") None.

Definition w_exhausted : World := mkWorld [evt_exhausted] 2000 [] [DeliverOk] [] [] [].

(** The three fixture events in a store. *)
Definition w_samples : World := mkWorld sample_events 2000 [] [] [] [] [].

(** An event stored under an idempotency key. *)
Definition evt_keyed : Event :=
  mkEvent "evt_keyed0000001" "order.created" [("order_id", JStr "12345")] None
    Pending 1705311001 None 0 (Some "user-1") (Some "order-12345").

Definition w_keyed : World := mkWorld [evt_order_created; evt_keyed] 2000 [] [] [] [] [].

(** The chunk results of the [merge_batch_results] docstring. *)
Definition docstring_results : list (list (string * pyval)) :=
  [[("successful", VInt 10); ("failed", VInt 2); ("items", VList [VStr "a"; VStr "b"])];
   [("successful", VInt 8); ("failed", VInt 1); ("items", VList [VStr "c"; VStr "d"])]].

End Samples.

(** ** Proofs *)





Lemma eqb_neq_false (s1 s2 : string) : s1 <> s2 -> String.eqb s1 s2 = false.
Proof. intro H. apply String.eqb_neq. exact H. Qed.








Lemma table_get_id (eid : string) (t : list Event) (e : Event) :
  table_get eid t = Some e -> e.(event_id) = eid.
Proof.
  induction t as [|x t IH]; simpl; [discriminate|].
  destruct (String.eqb x.(event_id) eid) eqn:E.
  - intro H. injection H as <-. now apply String.eqb_eq.
  - exact IH.
Qed.

Lemma table_get_put_same (e : Event) (t : list Event) :
  table_get e.(event_id) (table_put e t) = Some e.
Proof.
  induction t as [|x t IH]; simpl.
  - now rewrite String.eqb_refl.
  - destruct (String.eqb x.(event_id) e.(event_id)) eqn:E; simpl.
    + now rewrite String.eqb_refl.
    + now rewrite E.
Qed.

Lemma get_event_found (eid : string) (e : Event) (w : World) :
  eid <> ""%string -> table_get eid w.(table) = Some e ->
  get_event eid w = (inl (Some e), w).
Proof.
  intros Hne Hget. unfold get_event. rewrite (eqb_neq_false _ _ Hne).
  now rewrite Hget.
Qed.

(** C9 (acknowledge frame).  Acknowledging a stored event rewrites it with
    [status = delivered] and [delivered_at = now]; every other field,
    [delivery_attempts] included, keeps its value. *)
Theorem acknowledge_event_frame (eid : string) (ev : Event) (w : World) :
  eid <> ""%string -> table_get eid w.(table) = Some ev ->
  exists w' ev',
    acknowledge_event eid w = (inl tt, w')
    /\ table_get eid w'.(table) = Some ev'
    /\ ev'.(status) = Delivered /\ ev'.(delivered_at) = Some w.(clock)
    /\ ev'.(event_id) = ev.(event_id) /\ ev'.(event_type) = ev.(event_type)
    /\ ev'.(payload) = ev.(payload) /\ ev'.(metadata) = ev.(metadata)
    /\ ev'.(created_at) = ev.(created_at)
    /\ ev'.(delivery_attempts) = ev.(delivery_attempts)
    /\ ev'.(user_id) = ev.(user_id)
    /\ ev'.(idempotency_key) = ev.(idempotency_key).
Proof.
  intros Hne Hget.
  pose proof (table_get_id _ _ _ Hget) as Hid.
  unfold acknowledge_event, try_except, bind.
  rewrite (get_event_found _ _ _ Hne Hget).
  unfold now, update_event, put_event, set_table. simpl.
  eexists; exists (set_delivered_at (Some w.(clock)) (set_status Delivered ev)).
  split; [reflexivity|]. simpl.
  split; [|repeat split].
  rewrite <- Hid at 1. exact (table_get_put_same _ _).
Qed.

(** Replaying a stored event whose [delivery_attempts] is at least 10
    raises the 400 error and leaves the whole world as it was. *)
Lemma replay_event_ceiling_single (eid : string) (request : option ReplayEventRequest)
    (ev : Event) (w : World) :
  eid <> ""%string -> table_get eid w.(table) = Some ev ->
  10 <= ev.(delivery_attempts) ->
  replay_event eid request w
  = (inr (HTTPException 400 "Event has exceeded maximum replay attempts (10)"), w).
Proof.
  intros Hne Hget Hmax.
  unfold replay_event, try_except, bind.
  rewrite (get_event_found _ _ _ Hne Hget).
  apply Z.leb_le in Hmax. rewrite Hmax. reflexivity.
Qed.

(** C3 (redelivery on update).  A successful update of a stored event
    (found, owned by the caller or with no caller identity, some field
    provided, payload not null) stores the event it returns.  When the
    event was [delivered] or [replayed] before, the stored event is
    [pending] with [delivered_at = None] and [send_message] was called
    exactly once, with that event; when it was [pending] or [failed], the
    status is kept and nothing is sent. *)
Theorem update_event_redelivery (eid : string) (request : UpdateEventRequest)
    (auth_uid : option string) (ev : Event) (w : World) :
  eid <> ""%string -> table_get eid w.(table) = Some ev ->
  (auth_uid = None \/ ev.(user_id) = auth_uid) ->
  is_set request.(upd_payload) || is_set request.(upd_metadata)
    || is_set request.(upd_idempotency_key) = true ->
  request.(upd_payload) <> SetNull ->
  exists r w',
    update_event_h eid request auth_uid w = (inl r, w')
    /\ table_get eid w'.(table) = Some r.(resp_event)
    /\ ((ev.(status) = Delivered \/ ev.(status) = Replayed) ->
        r.(resp_event).(status) = Pending /\ r.(resp_event).(delivered_at) = None
        /\ w'.(send_log) = w.(send_log) ++ [(eid, r.(resp_event))])
    /\ ((ev.(status) = Pending \/ ev.(status) = Failed) ->
        r.(resp_event).(status) = ev.(status) /\ w'.(send_log) = w.(send_log)).
Proof.
  intros Hne Hget Hown Hset Hnn.
  pose proof (table_get_id _ _ _ Hget) as Hid.
  assert (Hown' : match auth_uid with
                  | Some u => if negb (opt_str_eqb ev.(user_id) (Some u))
                              then raise (A := unit) (HTTPException 403
                                     "You can only update your own events")
                              else ret tt
                  | None => ret tt
                  end = ret tt).
  { destruct Hown as [-> | Hu]; [reflexivity|].
    destruct auth_uid as [u|]; [|reflexivity].
    rewrite Hu. simpl. now rewrite String.eqb_refl. }
  unfold update_event_h, try_except, bind.
  rewrite (get_event_found _ _ _ Hne Hget).
  rewrite Hown'. unfold ret. rewrite Hset. simpl.
  destruct request as [p m k]; simpl in *.
  destruct p as [| |p]; [|congruence|];
  destruct m as [| |m]; destruct k as [| |k]; simpl in Hset; try discriminate;
  destruct ev as [i ty pl md st ca da n uid ik]; simpl in *; subst i;
  destruct st; simpl;
  unfold send_message, skip, ret, update_event, put_event, set_table; simpl;
  try (destruct (send_script w) as [|[] srest]); simpl;
  eexists; eexists; (split; [reflexivity|]); simpl;
  (split; [exact (table_get_put_same _ _)|]);
  split; intros [Hs|Hs]; try discriminate; repeat split; reflexivity.
Qed.

(** C2 (delivery fallback in create), evaluated where the push answers
    [False] and the first [send_message] raises: the [except] clause meant
    for delivery errors catches the queue error and calls [send_message] a
    second time.  The call still answers 201 with a pending event. *)
Theorem create_event_send_twice :
  let run := create_event "evt_000000000001" Samples.order_request None
               Samples.w_send_fails_once in
  option_map resp_code (result_value (fst run)) = Some 201
  /\ option_map (fun r => r.(resp_event).(status)) (result_value (fst run)) = Some Pending
  /\ option_map delivered_at (table_get "evt_000000000001" (snd run).(table)) = Some None
  /\ map fst (snd run).(send_log) = ["evt_000000000001"; "evt_000000000001"]%string
  /\ length (snd run).(queue) = 1%nat.
Proof. vm_compute. repeat split; reflexivity. Qed.

(** C5 (delivery counter), evaluated where the immediate push of a new
    event answers [False]: one delivery attempt is made, and the stored
    event keeps [delivery_attempts = 0]. *)
Theorem create_event_failed_push_not_counted :
  let run := create_event "evt_000000000001" Samples.order_request None
               Samples.w_push_fails in
  length (snd run).(delivery_log) = 1%nat
  /\ option_map delivery_attempts (table_get "evt_000000000001" (snd run).(table))
     = Some 0.
Proof. vm_compute. split; reflexivity. Qed.

(** C6 (delivered_at invariant), evaluated on a failed replay of a
    delivered event: the stored event goes back to [pending] but keeps its
    old [delivered_at], while the response reports [delivered_at = None]. *)
Theorem replay_failed_keeps_delivered_at :
  let run := replay_event "evt_delivered01" None Samples.w_replay_push_fails in
  option_map (fun e => (e.(status), e.(delivered_at)))
    (table_get "evt_delivered01" (snd run).(table))
  = Some (Pending, Some 1705311002)
  /\ option_map rr_delivered_at (result_value (fst run)) = Some None.
Proof. vm_compute. split; reflexivity. Qed.

Lemma chunks_concat {A} (K m : nat) (l : list A) :
  (length l <= m * K)%nat ->
  concat (map (fun j => firstn K (skipn (j * K) l)) (seq 0 m)) = l.
Proof.
  revert l. induction m as [|m IH]; intros l Hlen.
  - simpl in *. destruct l; [reflexivity|simpl in Hlen; lia].
  - simpl. rewrite <- seq_shift, map_map.
    rewrite (map_ext (fun x => firstn K (skipn (S x * K) l))
                     (fun x => firstn K (skipn (x * K) (skipn K l)))).
    + rewrite IH; [apply firstn_skipn|]. rewrite length_skipn. lia.
    + intro x. rewrite skipn_skipn. f_equal. f_equal. lia.
Qed.

Lemma chunk_list_nat {A} (items : list A) (k : Z) :
  0 < k ->
  chunk_list items k
  = inl (map (fun j => firstn (Z.to_nat k) (skipn (j * Z.to_nat k) items))
           (seq 0 (Z.to_nat ((Z.of_nat (length items) + k - 1) / k)))).
Proof.
  intro Hk. unfold chunk_list, py_range_pos.
  destruct (Z.leb_spec k 0); [lia|].
  f_equal. rewrite map_map. replace (Z.of_nat (length items) - 0) with
    (Z.of_nat (length items)) by lia.
  apply map_ext. intro j. unfold py_slice. f_equal.
  - nia.
  - f_equal. nia.
Qed.

(** Arithmetic of the number of chunks [m = ceil(n / K)]. *)
Lemma chunk_count_bounds (n : nat) (k : Z) :
  0 < k ->
  let m := Z.to_nat ((Z.of_nat n + k - 1) / k) in
  (n <= m * Z.to_nat k)%nat /\ (m > 0 -> (m - 1) * Z.to_nat k < n)%nat.
Proof.
  intros Hk m.
  pose proof (Z.div_mod (Z.of_nat n + k - 1) k ltac:(lia)) as Hdm.
  pose proof (Z.mod_pos_bound (Z.of_nat n + k - 1) k Hk) as Hb.
  assert (Hq : 0 <= (Z.of_nat n + k - 1) / k) by (apply Z.div_pos; lia).
  subst m. split; [|intro Hm]; nia.
Qed.

(** C10 (chunking round trip).  For [chunk_size > 0], [chunk_list]
    succeeds; the chunks concatenate to the input, none is empty, and all
    but the last have exactly [chunk_size] elements. *)
Theorem chunk_list_roundtrip {A} (items : list A) (chunk_size : Z) :
  0 < chunk_size ->
  exists chunks,
    chunk_list items chunk_size = inl chunks
    /\ concat chunks = items
    /\ Forall (fun c => c <> []) chunks
    /\ (forall j, (j + 1 < length chunks)%nat ->
        length (nth j chunks []) = Z.to_nat chunk_size).
Proof.
  intro Hk. rewrite (chunk_list_nat items chunk_size Hk).
  destruct (chunk_count_bounds (length items) chunk_size Hk) as [Hup Hlow].
  set (K := Z.to_nat chunk_size) in *.
  set (m := Z.to_nat ((Z.of_nat (length items) + chunk_size - 1) / chunk_size)) in *.
  assert (HK : (0 < K)%nat) by (subst K; lia).
  eexists. split; [reflexivity|]. split; [|split].
  - apply chunks_concat. exact Hup.
  - apply Forall_forall. intros c Hc. apply in_map_iff in Hc.
    destruct Hc as (j & <- & Hj). apply in_seq in Hj.
    assert (Hlt : (j * K < length items)%nat) by nia.
    intro Hnil. apply (f_equal (@length A)) in Hnil.
    rewrite length_firstn, length_skipn in Hnil. simpl in Hnil. lia.
  - intros j Hj. rewrite length_map, length_seq in Hj.
    pose (F := fun j => firstn K (skipn (j * K) items)).
    change (length (nth j (map F (seq 0 m)) []) = K).
    rewrite (nth_indep _ [] (F 0%nat)) by (rewrite length_map, length_seq; lia).
    rewrite map_nth, seq_nth by lia. unfold F. simpl.
    rewrite length_firstn, length_skipn. nia.
Qed.

(** C4 (replay ceiling).  For a stored event whose [delivery_attempts] is
    at least 10: the single replay raises the 400 (validation class) error
    "Event has exceeded maximum replay attempts (10)"; in a batch replay the
    item for that event is a failed result with code MAX_ATTEMPTS_EXCEEDED
    when the caller may replay the event (FORBIDDEN, checked first, when
    the caller does not own it).  In every case the world is left as it
    was: nothing is written (metadata included), delivered or queued. *)
Theorem replay_ceiling :
  (forall (eid : string) (request : option ReplayEventRequest) (ev : Event) (w : World),
     eid <> ""%string -> table_get eid w.(table) = Some ev ->
     10 <= ev.(delivery_attempts) ->
     replay_event eid request w
     = (inr (HTTPException 400 "Event has exceeded maximum replay attempts (10)"), w))
  /\
  (forall (auth_uid : option string) (by_id : list (string * Event)) (idx : Z)
          (eid : string) (ev : Event) (w : World),
     dict_get eid by_id = Some ev ->
     10 <= ev.(delivery_attempts) ->
     replay_item auth_uid by_id idx eid w
     = (inl (if owner_ok auth_uid ev
             then replay_item_error idx eid "MAX_ATTEMPTS_EXCEEDED"
                    "Event has exceeded maximum replay attempts (10)"
             else replay_item_error idx eid "FORBIDDEN"
                    "You can only replay your own events"), w)).
Proof.
  split.
  - exact replay_event_ceiling_single.
  - intros auth_uid by_id idx eid ev w Hget Hmax.
    unfold replay_item, try_except.
    rewrite Hget.
    destruct (owner_ok auth_uid ev); simpl; [|reflexivity].
    apply Z.leb_le in Hmax. rewrite Hmax. reflexivity.
Qed.






Lemma insert_desc_length (e : Event) (l : list Event) :
  length (insert_desc e l) = S (length l).
Proof.
  induction l as [|x l IH]; simpl; [reflexivity|].
  destruct (created_at e <=? created_at x); simpl; [rewrite IH|]; reflexivity.
Qed.

Lemma sort_desc_length (l : list Event) : length (sort_desc l) = length l.
Proof.
  unfold sort_desc.
  assert (G : forall acc, length (fold_left (fun acc e => insert_desc e acc) l acc)
                          = (length l + length acc)%nat).
  { induction l as [|x l IH]; intro acc; simpl; [reflexivity|].
    rewrite IH, insert_desc_length. lia. }
  rewrite G. simpl. lia.
Qed.

Lemma list_events_100 (st : option string) (fs : list EventFilter) (w : World)
    (evs : list Event) (w' : World) :
  list_events st 100 fs w = (inl evs, w') -> (length evs <= 100)%nat.
Proof.
  unfold list_events. cbn -[firstn sort_desc apply_filters_to_events].
  destruct fs as [|f fs].
  - remember (Z.to_nat (if existsb _ [] then 300 else 100)) as n eqn:Hn.
    simpl in Hn.
    intro H. injection H as <- _.
    destruct (truthy st).
    + rewrite length_firstn. lia.
    + rewrite sort_desc_length, length_firstn. lia.
  - destruct (apply_filters_to_events _ _); intro H; [|discriminate].
    set (n := PosDef.Pos.to_nat 100) in H.
    assert (E : evs = firstn n l) by congruence. subst evs.
    rewrite length_firstn. exact (Nat.le_min_l _ _).
Qed.

(** C8 (filter correctness), evaluated on the three events of the
    integration test.  [payload.amount[gte]=100] keeps the query value as
    the string ["100"], and [_event_matches_filter] compares the float
    amount with it: Python raises [TypeError] instead of selecting the
    150.00 event.  [event_type[startswith]=order.] selects the two
    [order.*] events. *)
Theorem filter_amount_gte_raises :
  apply_filters_to_events Samples.sample_events
    [mkEventFilter "payload.amount" "gte" "100"]
  = inr (TypeError "'>=' not supported between instances")
  /\ apply_filters_to_events Samples.sample_events
       [mkEventFilter "event_type" "startswith" "order."]
     = inl [Samples.evt_order_created; Samples.evt_order_shipped].
Proof. split; reflexivity. Qed.

(** ** Further properties of the code *)

(** Query-parameter keys. *)

Lemma chars_app (a b : string) : chars (a ++ b) = chars a ++ chars b.
Proof. induction a as [|c a IH]; simpl; [reflexivity|]. unfold chars in *. simpl. now rewrite IH. Qed.

Lemma split_at_char_app (c : ascii) (a b : list ascii) :
  (forall x, In x a -> x <> c) -> split_at_char c (a ++ c :: b) = Some (a, b).
Proof.
  induction a as [|d a IH]; intro Hn; simpl.
  - rewrite Ascii.eqb_refl. reflexivity.
  - destruct (Ascii.eqb_spec d c) as [E|E].
    + exfalso. exact (Hn d (or_introl eq_refl) E).
    + rewrite IH; [reflexivity|]. intros x Hx. apply Hn. right. exact Hx.
Qed.

Lemma split_at_char_none (c : ascii) (a : list ascii) :
  (forall x, In x a -> x <> c) -> split_at_char c a = None.
Proof.
  induction a as [|d a IH]; intro Hn; simpl; [reflexivity|].
  destruct (Ascii.eqb_spec d c) as [E|E].
  - exfalso. exact (Hn d (or_introl eq_refl) E).
  - rewrite IH; [reflexivity|]. intros x Hx. apply Hn. right. exact Hx.
Qed.

Lemma no_char_spec (c : ascii) (l : list ascii) :
  (forall x, In x l -> x <> c) -> no_char c l = true.
Proof.
  intro H. unfold no_char. apply forallb_forall. intros x Hx.
  destruct (Ascii.eqb_spec x c) as [E|E]; [exfalso; exact (H x Hx E)|reflexivity].
Qed.

(** A character a field name may hold is no bracket. *)
Lemma field_char_not_bracket (d : ascii) :
  (is_alpha d || is_digit d || Ascii.eqb d "_"%char || Ascii.eqb d "."%char) = true
  \/ d = nl ->
  d <> "["%char /\ d <> "]"%char.
Proof.
  intros [H|H]; split; intros ->; try discriminate; vm_compute in H; discriminate.
Qed.

Lemma field_name_ok_chars (f : string) :
  field_name_ok f = true ->
  chars f <> [] /\ forall x, In x (chars f) -> x <> "["%char /\ x <> "]"%char.
Proof.
  unfold field_name_ok, dollar_ok.
  set (p := fun l : list ascii => match l with
                  | [] => false
                  | c :: r => (is_alpha c || Ascii.eqb c "_"%char)
                              && forallb (fun d => is_alpha d || is_digit d
                                                   || Ascii.eqb d "_"%char
                                                   || Ascii.eqb d "."%char) r
                  end).
  assert (Hp : forall l, p l = true ->
            l <> [] /\ forall x, In x l -> x <> "["%char /\ x <> "]"%char).
  { intros [|c r] H; [discriminate|]. simpl in H.
    apply andb_true_iff in H as [Hc Hr]. split; [discriminate|].
    intros x [<-|Hx].
    - apply field_char_not_bracket. left.
      apply orb_true_iff in Hc as [Hc|Hc]; rewrite Hc; simpl;
        [reflexivity|now rewrite !orb_true_r].
    - apply field_char_not_bracket. left.
      rewrite forallb_forall in Hr. exact (Hr x Hx). }
  intro H. apply orb_true_iff in H as [H|H]; [exact (Hp _ H)|].
  destruct (rev (chars f)) as [|c r] eqn:Hrev; [discriminate|].
  apply andb_true_iff in H as [Hc Hr].
  apply Ascii.eqb_eq in Hc. subst c.
  assert (E : chars f = rev r ++ [nl]).
  { rewrite <- (rev_involutive (chars f)), Hrev. reflexivity. }
  rewrite E. split; [destruct (rev r); discriminate|].
  intros x Hx. apply in_app_or in Hx as [Hx|[<-|[]]].
  - exact (proj2 (Hp _ Hr) x Hx).
  - apply field_char_not_bracket. right. reflexivity.
Qed.

(** X1: [_parse_param_key] gives back the field and the operator of a key
    written [field[op]] with a valid field name and operator, and reads a
    bare valid field name as an [eq] filter on that field. *)
Theorem parse_param_key_roundtrip (f op : string) :
  field_name_ok f = true -> In op valid_operators ->
  _parse_param_key (f ++ "[" ++ op ++ "]") = inl (f, op)
  /\ _parse_param_key f = inl (f, "eq"%string).
Proof.
  intros Hf Hop.
  destruct (field_name_ok_chars f Hf) as [Hne Hbr].
  assert (Hfe : String.eqb f "" = false).
  { destruct f; [contradiction|reflexivity]. }
  assert (Hops : chars op <> [] /\ forall x, In x (chars op) -> x <> "["%char /\ x <> "]"%char).
  { simpl in Hop.
    repeat (destruct Hop as [<-|Hop]; [split; [discriminate|];
             intros x Hx; simpl in Hx;
             repeat (destruct Hx as [<-|Hx]; [split; discriminate|]); contradiction|]).
    contradiction. }
  destruct Hops as [Hone Hobr].
  assert (Hin : in_names op valid_operators = true).
  { unfold in_names. apply existsb_exists. exists op. split; [exact Hop|].
    apply String.eqb_refl. }
  split.
  - unfold _parse_param_key, bracket_match.
    rewrite chars_app. change (chars ("[" ++ op ++ "]")) with ("["%char :: chars (op ++ "]")).
    rewrite split_at_char_app by (intros x Hx; exact (proj1 (Hbr x Hx))).
    rewrite chars_app. change (chars "]") with ["]"%char].
    rewrite split_at_char_app by (intros x Hx; exact (proj2 (Hobr x Hx))).
    rewrite (no_char_spec "]"%char (chars f)) by (intros x Hx; exact (proj2 (Hbr x Hx))).
    rewrite (no_char_spec "["%char (chars op)) by (intros x Hx; exact (proj1 (Hobr x Hx))).
    assert (Lf : Nat.eqb (length (chars f)) 0 = false)
      by (destruct (chars f); [contradiction|reflexivity]).
    assert (Lo : Nat.eqb (length (chars op)) 0 = false)
      by (destruct (chars op); [contradiction|reflexivity]).
    rewrite Lf, Lo. cbn -[in_names field_name_ok String.eqb]. unfold chars.
    rewrite !string_of_list_ascii_of_string, Hin, Hfe, Hf. reflexivity.
  - unfold _parse_param_key, bracket_match.
    rewrite split_at_char_none by (intros x Hx; exact (proj1 (Hbr x Hx))).
    rewrite Hfe, Hf. reflexivity.
Qed.

(** Query parameters to filters. *)

Lemma filters_set_in (f x : EventFilter) (fs : list EventFilter) :
  In x (filters_set f fs) -> x = f \/ In x fs.
Proof.
  induction fs as [|g fs IH]; simpl.
  - intros [<-|[]]. left. reflexivity.
  - destruct (String.eqb (f_field g) (f_field f)); simpl.
    + intros [<-|H]; [left; reflexivity|right; right; exact H].
    + intros [<-|H]; [right; left; reflexivity|].
      destruct (IH H) as [E|E]; [left; exact E|right; right; exact E].
Qed.

Lemma filters_set_has (f : EventFilter) (fs : list EventFilter) :
  In f (filters_set f fs).
Proof.
  induction fs as [|g fs IH]; simpl; [left; reflexivity|].
  destruct (String.eqb (f_field g) (f_field f)); simpl; [left; reflexivity|right; exact IH].
Qed.

Lemma filters_set_keeps (f g : EventFilter) (fs : list EventFilter) :
  In g fs -> exists h, In h (filters_set f fs) /\ h.(f_field) = g.(f_field).
Proof.
  induction fs as [|x fs IH]; simpl; [intros []|].
  destruct (String.eqb (f_field x) (f_field f)) eqn:E; intros [<-|H].
  - exists f. split; [left; reflexivity|]. symmetry. apply String.eqb_eq. exact E.
  - exists g. split; [right; exact H|reflexivity].
  - exists x. split; [left; reflexivity|reflexivity].
  - destruct (IH H) as (h & Hh & Hf). exists h. split; [right; exact Hh|exact Hf].
Qed.

Lemma filters_set_nodup (f : EventFilter) (fs : list EventFilter) :
  NoDup (map f_field fs) -> NoDup (map f_field (filters_set f fs)).
Proof.
  induction fs as [|g fs IH]; simpl; intro Hnd.
  - constructor; [intros []|constructor].
  - inversion Hnd as [|? ? Hni Hnd']; subst.
    destruct (String.eqb (f_field g) (f_field f)) eqn:E; simpl.
    + apply String.eqb_eq in E. rewrite <- E. constructor; assumption.
    + constructor; [|exact (IH Hnd')].
      intro Hin. apply in_map_iff in Hin as (h & Hh & Hin).
      destruct (filters_set_in f h fs Hin) as [->|Hin'].
      * apply String.eqb_neq in E. exact (E (eq_sym Hh)).
      * apply Hni. apply in_map_iff. exists h. split; assumption.
Qed.

Lemma parse_filter_params_fold (qp l : QueryParams) (acc : list EventFilter) :
  incl l qp -> NoDup (map f_field acc) ->
  (forall flt, In flt acc ->
     exists k, In (k, flt.(f_value)) qp
               /\ in_names k ["status"; "limit"; "cursor"]%string = false
               /\ flt.(f_value) <> ""%string
               /\ _parse_param_key k = inl (flt.(f_field), flt.(f_operator))) ->
  let res := fold_left (fun acc '(k, v) =>
               if in_names k ["status"; "limit"; "cursor"]%string then acc
               else if String.eqb v "" then acc
               else match _parse_param_key k with
                    | inl (f, op) => filters_set (mkEventFilter f op v) acc
                    | inr _ => acc
                    end) l acc in
  NoDup (map f_field res)
  /\ (forall flt, In flt res ->
        exists k, In (k, flt.(f_value)) qp
                  /\ in_names k ["status"; "limit"; "cursor"]%string = false
                  /\ flt.(f_value) <> ""%string
                  /\ _parse_param_key k = inl (flt.(f_field), flt.(f_operator)))
  /\ (forall g, In g acc -> exists h, In h res /\ h.(f_field) = g.(f_field))
  /\ (forall k v f op, In (k, v) l ->
        in_names k ["status"; "limit"; "cursor"]%string = false -> v <> ""%string ->
        _parse_param_key k = inl (f, op) -> exists h, In h res /\ h.(f_field) = f).
Proof.
  revert acc. induction l as [|[k v] l IH]; intros acc Hincl Hnd Hsrc; cbn -[in_names].
  - split; [exact Hnd|]. split; [exact Hsrc|]. split.
    + intros g Hg. exists g. split; [exact Hg|reflexivity].
    + intros k v f op [].
  - assert (Hincl' : incl l qp) by (intros x Hx; apply Hincl; right; exact Hx).
    assert (Hkv : In (k, v) qp) by (apply Hincl; left; reflexivity).
    assert (Step : forall acc',
              NoDup (map f_field acc') ->
              (forall flt, In flt acc' ->
                 exists k, In (k, flt.(f_value)) qp
                           /\ in_names k ["status"; "limit"; "cursor"]%string = false
                           /\ flt.(f_value) <> ""%string
                           /\ _parse_param_key k = inl (flt.(f_field), flt.(f_operator))) ->
              (forall g, In g acc -> exists h, In h acc' /\ h.(f_field) = g.(f_field)) ->
              (forall f op, in_names k ["status"; "limit"; "cursor"]%string = false ->
                 v <> ""%string -> _parse_param_key k = inl (f, op) ->
                 exists h, In h acc' /\ h.(f_field) = f) ->
              let res := fold_left (fun acc '(k, v) =>
                   if in_names k ["status"; "limit"; "cursor"]%string then acc
                   else if String.eqb v "" then acc
                   else match _parse_param_key k with
                        | inl (f, op) => filters_set (mkEventFilter f op v) acc
                        | inr _ => acc
                        end) l acc' in
              NoDup (map f_field res)
              /\ (forall flt, In flt res ->
                    exists k, In (k, flt.(f_value)) qp
                              /\ in_names k ["status"; "limit"; "cursor"]%string = false
                              /\ flt.(f_value) <> ""%string
                              /\ _parse_param_key k = inl (flt.(f_field), flt.(f_operator)))
              /\ (forall g, In g acc -> exists h, In h res /\ h.(f_field) = g.(f_field))
              /\ (forall k' v' f op, In (k', v') ((k, v) :: l) ->
                    in_names k' ["status"; "limit"; "cursor"]%string = false -> v' <> ""%string ->
                    _parse_param_key k' = inl (f, op) -> exists h, In h res /\ h.(f_field) = f)).
    { intros acc' Hnd' Hsrc' Hkeep Hnew.
      destruct (IH acc' Hincl' Hnd' Hsrc') as (R1 & R2 & R3 & R4).
      split; [exact R1|]. split; [exact R2|]. split.
      - intros g Hg. destruct (Hkeep g Hg) as (h & Hh & Hf).
        destruct (R3 h Hh) as (h' & Hh' & Hf'). exists h'. split; [exact Hh'|congruence].
      - intros k' v' f op [E|Hin] Hr Hv Hp.
        + injection E as -> ->. destruct (Hnew f op Hr Hv Hp) as (h & Hh & Hf).
          destruct (R3 h Hh) as (h' & Hh' & Hf'). exists h'. split; [exact Hh'|congruence].
        + exact (R4 k' v' f op Hin Hr Hv Hp). }
    destruct (in_names k ["status"; "limit"; "cursor"]%string) eqn:Hres.
    + apply Step; [exact Hnd|exact Hsrc|intros g Hg; exists g; split; [exact Hg|reflexivity]|].
      intros f op Hr. discriminate Hr.
    + destruct (String.eqb v "") eqn:Hv.
      * apply Step; [exact Hnd|exact Hsrc|intros g Hg; exists g; split; [exact Hg|reflexivity]|].
        intros f op _ Hv'. apply String.eqb_eq in Hv. contradiction.
      * destruct (_parse_param_key k) as [[f op]|x] eqn:Hp.
        -- apply Step.
           ++ apply filters_set_nodup. exact Hnd.
           ++ intros flt Hin. destruct (filters_set_in _ _ _ Hin) as [->|Hin'].
              ** exists k. simpl. split; [exact Hkv|]. split; [exact Hres|].
                 split; [apply String.eqb_neq; exact Hv|exact Hp].
              ** exact (Hsrc flt Hin').
           ++ intros g Hg. apply filters_set_keeps. exact Hg.
           ++ intros f' op' _ _ Hp'. try rewrite Hp in Hp'. injection Hp' as <- <-.
              exists (mkEventFilter f op v). split; [apply filters_set_has|reflexivity].
        -- apply Step; [exact Hnd|exact Hsrc|intros g Hg; exists g; split; [exact Hg|reflexivity]|].
           intros f op _ _ Hp'. try rewrite Hp in Hp'. discriminate.
Qed.

(** X2: [parse_filter_params] yields at most one filter per field; each
    filter comes from a query parameter that is not [status], [limit] or
    [cursor], whose value is non-empty and whose key parses to the filter's
    field and operator; and every such parameter has a filter on its field. *)
Theorem parse_filter_params_sound (qp : QueryParams) :
  NoDup (map f_field (parse_filter_params qp))
  /\ (forall flt, In flt (parse_filter_params qp) ->
        exists k, In (k, flt.(f_value)) qp
                  /\ in_names k ["status"; "limit"; "cursor"]%string = false
                  /\ flt.(f_value) <> ""%string
                  /\ _parse_param_key k = inl (flt.(f_field), flt.(f_operator)))
  /\ (forall k v f op, In (k, v) qp ->
        in_names k ["status"; "limit"; "cursor"]%string = false -> v <> ""%string ->
        _parse_param_key k = inl (f, op) ->
        exists flt, In flt (parse_filter_params qp) /\ flt.(f_field) = f).
Proof.
  destruct (parse_filter_params_fold qp qp [] (incl_refl qp) (NoDup_nil _)
              (fun flt H => match H with end)) as (R1 & R2 & _ & R4).
  split; [exact R1|]. split; [exact R2|exact R4].
Qed.

(** Filters on events. *)

(** X3: an event matches a list of filters exactly when it matches each of
    them: the filters are combined with AND. *)
Theorem event_matches_filters_all (e : Event) (fs : list EventFilter) :
  _event_matches_filters e fs = inl true
  <-> (forall f, In f fs -> _event_matches_filter e f = inl true).
Proof.
  induction fs as [|g fs IH]; simpl.
  - split; [intros _ f []|reflexivity].
  - destruct (_event_matches_filter e g) as [[|]|x] eqn:Hg.
    + rewrite IH. split.
      * intros H f [<-|Hf]; [exact Hg|exact (H f Hf)].
      * intros H f Hf. exact (H f (or_intror Hf)).
    + split; [discriminate|]. intro H. rewrite (H g (or_introl eq_refl)) in Hg.
      discriminate.
    + split; [discriminate|]. intro H. rewrite (H g (or_introl eq_refl)) in Hg.
      discriminate.
Qed.

Lemma filter_all_true {A} (l : list A) : filter (fun _ => true) l = l.
Proof. induction l as [|x l IH]; simpl; congruence. Qed.

Lemma apply_filters_spec (events : list Event) (fs : list EventFilter) (r : list Event) :
  apply_filters_to_events events fs = inl r
  <-> (forall e, In e events -> exists b, _event_matches_filters e fs = inl b)
      /\ r = filter (fun e => match _event_matches_filters e fs with
                              | inl true => true | _ => false end) events.
Proof.
  destruct fs as [|f fs].
  - simpl. rewrite filter_all_true. split.
    + intro H. injection H as <-. split; [intros; eexists; reflexivity|reflexivity].
    + intros [_ ->]. reflexivity.
  - unfold apply_filters_to_events. revert r.
    induction events as [|e events IH]; intro r; cbn -[_event_matches_filters].
    + split.
      * intro H. injection H as <-. split; [intros _ []|reflexivity].
      * intros [_ ->]. reflexivity.
    + destruct (_event_matches_filters e (f :: fs)) as [b|x] eqn:Hm.
      * match goal with
        | |- context [match ?t with inl r' => _ | inr x => _ end] =>
            destruct t as [r'|x] eqn:Hg
        end.
        -- destruct (proj1 (IH r') eq_refl) as [Hall ->]. split.
           ++ intro H. injection H as <-. split.
              ** intros e' [<-|He']; [exists b; exact Hm|exact (Hall e' He')].
              ** destruct b; reflexivity.
           ++ intros [_ ->]. destruct b; reflexivity.
        -- split; [discriminate|]. intros [Hall _].
           assert (Hall' : forall e', In e' events ->
                             exists b, _event_matches_filters e' (f :: fs) = inl b)
             by (intros e' He'; exact (Hall e' (or_intror He'))).
           pose proof (proj2 (IH _) (conj Hall' eq_refl)) as Hc. congruence.
      * split; [discriminate|]. intros [Hall _].
        destruct (Hall e (or_introl eq_refl)) as [b Hb]. congruence.
Qed.

(** X4: [apply_filters_to_events] succeeds exactly when no event makes a
    filter raise, and then keeps, in their order, the events that match. *)
Theorem apply_filters_to_events_spec (events : list Event) (fs : list EventFilter)
    (r : list Event) :
  apply_filters_to_events events fs = inl r
  <-> (forall e, In e events -> exists b, _event_matches_filters e fs = inl b)
      /\ r = filter (fun e => match _event_matches_filters e fs with
                              | inl true => true | _ => false end) events.
Proof. exact (apply_filters_spec events fs r). Qed.

(** Listing. *)

Lemma in_firstn_l {A} (n : nat) (x : A) (l : list A) : In x (firstn n l) -> In x l.
Proof.
  intro H. rewrite <- (firstn_skipn n l). apply in_or_app. left. exact H.
Qed.

Lemma insert_desc_in (e x : Event) (l : list Event) :
  In x (insert_desc e l) <-> e = x \/ In x l.
Proof.
  induction l as [|y l IH]; simpl; [tauto|].
  destruct (created_at e <=? created_at y); simpl; rewrite ?IH; tauto.
Qed.

Lemma sort_desc_in (x : Event) (l : list Event) : In x (sort_desc l) <-> In x l.
Proof.
  unfold sort_desc.
  assert (G : forall acc, In x (fold_left (fun acc e => insert_desc e acc) l acc)
                          <-> In x l \/ In x acc).
  { induction l as [|y l IH]; intro acc; simpl; [tauto|].
    rewrite IH, insert_desc_in. tauto. }
  rewrite G. simpl. tauto.
Qed.

Lemma insert_desc_sorted (e : Event) (l : list Event) :
  StronglySorted (fun a b => b.(created_at) <= a.(created_at)) l ->
  StronglySorted (fun a b => b.(created_at) <= a.(created_at)) (insert_desc e l).
Proof.
  induction l as [|y l IH]; intro Hs; simpl.
  - repeat constructor.
  - inversion Hs as [|? ? Hs' Hf]; subst.
    destruct (created_at e <=? created_at y) eqn:E.
    + apply Z.leb_le in E. constructor; [exact (IH Hs')|].
      apply Forall_forall. intros x Hx. apply insert_desc_in in Hx as [<-|Hx]; [exact E|].
      exact (proj1 (Forall_forall _ _) Hf x Hx).
    + apply Z.leb_gt in E. constructor; [exact Hs|].
      constructor; [lia|]. apply Forall_forall. intros x Hx.
      pose proof (proj1 (Forall_forall _ _) Hf x Hx). simpl in *. lia.
Qed.

Lemma sort_desc_sorted (l : list Event) :
  StronglySorted (fun a b => b.(created_at) <= a.(created_at)) (sort_desc l).
Proof.
  unfold sort_desc.
  assert (G : forall acc, StronglySorted (fun a b => b.(created_at) <= a.(created_at)) acc ->
            StronglySorted (fun a b => b.(created_at) <= a.(created_at))
              (fold_left (fun acc e => insert_desc e acc) l acc)).
  { induction l as [|y l IH]; intros acc Hs; simpl; [exact Hs|].
    apply IH. apply insert_desc_sorted. exact Hs. }
  apply G. constructor.
Qed.

Lemma filter_sorted {A} (R : A -> A -> Prop) (f : A -> bool) (l : list A) :
  StronglySorted R l -> StronglySorted R (filter f l).
Proof.
  induction l as [|y l IH]; intro Hs; simpl; [constructor|].
  inversion Hs as [|? ? Hs' Hf]; subst.
  destruct (f y); [|exact (IH Hs')].
  constructor; [exact (IH Hs')|]. apply Forall_forall. intros x Hx.
  apply filter_In in Hx as [Hx _]. exact (proj1 (Forall_forall _ _) Hf x Hx).
Qed.

Lemma firstn_sorted {A} (R : A -> A -> Prop) (n : nat) (l : list A) :
  StronglySorted R l -> StronglySorted R (firstn n l).
Proof.
  revert n. induction l as [|y l IH]; intros n Hs; destruct n; simpl;
    [constructor|constructor|constructor|].
  inversion Hs as [|? ? Hs' Hf]; subst.
  constructor; [exact (IH n Hs')|]. apply Forall_forall. intros x Hx.
  exact (proj1 (Forall_forall _ _) Hf x (in_firstn_l _ _ _ Hx)).
Qed.

Lemma list_events_inv (st : option string) (limit : Z) (fs : list EventFilter)
    (w w' : World) (r : list Event) :
  list_events st limit fs w = (inl r, w') ->
  w' = w /\ 1 <= limit <= 100 /\ (length r <= Z.to_nat limit)%nat
  /\ StronglySorted (fun a b => b.(created_at) <= a.(created_at)) r
  /\ (forall e, In e r ->
        In e w.(table) /\ _event_matches_filters e fs = inl true
        /\ (truthy st = true -> opt_str_eqb (Some (status_str e.(status))) st = true)).
Proof.
  unfold list_events. destruct ((limit <=? 0) || (100 <? limit)) eqn:Hl;
    [intro H; discriminate H|].
  apply orb_false_iff in Hl as [Hl1 Hl2].
  apply Z.leb_gt in Hl1. apply Z.ltb_ge in Hl2.
  cbv beta zeta. intro H.
  set (fetch := Z.to_nat (if existsb _ fs then _ else _)) in H.
  set (events := if truthy st then _ else _) in H.
  assert (Base : StronglySorted (fun a b => b.(created_at) <= a.(created_at)) events
                 /\ (forall e, In e events -> In e w.(table)
                      /\ (truthy st = true ->
                          opt_str_eqb (Some (status_str e.(status))) st = true))).
  { subst events. destruct (truthy st).
    - split.
      + apply firstn_sorted. apply sort_desc_sorted.
      + intros e He. apply in_firstn_l, sort_desc_in, filter_In in He as [He Hs].
        split; [exact He|intros _; exact Hs].
    - split.
      + apply sort_desc_sorted.
      + intros e He. apply sort_desc_in, in_firstn_l in He.
        split; [exact He|discriminate]. }
  destruct Base as [Bs Bin].
  destruct fs as [|f fs'].
  - injection H as <- <-. split; [reflexivity|]. split; [lia|]. split.
    + subst events fetch. simpl. destruct (truthy st).
      * rewrite length_firstn. lia.
      * rewrite sort_desc_length, length_firstn. lia.
    + split; [exact Bs|]. intros e He. destruct (Bin e He) as [H1 H2].
      split; [exact H1|]. split; [reflexivity|exact H2].
  - destruct (apply_filters_to_events events (f :: fs')) as [r'|x] eqn:Ha;
      [|discriminate H].
    assert (Er : r = firstn (Z.to_nat limit) r') by congruence.
    assert (Ew : w' = w) by congruence.
    subst r w'. apply apply_filters_spec in Ha as [Hall ->].
    split; [reflexivity|]. split; [lia|]. split.
    + rewrite length_firstn. lia.
    + split.
      * apply firstn_sorted, filter_sorted. exact Bs.
      * intros e He. apply in_firstn_l, filter_In in He as [He Hm].
        destruct (Bin e He) as [H1 H2]. split; [exact H1|]. split; [|exact H2].
        destruct (_event_matches_filters e (f :: fs')) as [[|]|]; congruence.
Qed.

(** X5: a successful [list_events] leaves the store as it was and returns at
    most [limit] events, [limit] being between 1 and 100; each is a stored
    event that satisfies every filter and, when a non-empty status is
    given, has that status. *)
Theorem list_events_result (st : option string) (limit : Z) (fs : list EventFilter)
    (w w' : World) (r : list Event) :
  list_events st limit fs w = (inl r, w') ->
  w' = w /\ 1 <= limit <= 100 /\ (length r <= Z.to_nat limit)%nat
  /\ (forall e, In e r ->
        In e w.(table) /\ _event_matches_filters e fs = inl true
        /\ (forall s, st = Some s -> s <> ""%string -> status_str e.(status) = s)).
Proof.
  intro H. destruct (list_events_inv st limit fs w w' r H) as (H1 & H2 & H3 & _ & H5).
  split; [exact H1|]. split; [exact H2|]. split; [exact H3|].
  intros e He. destruct (H5 e He) as (E1 & E2 & E3). split; [exact E1|]. split; [exact E2|].
  intros s -> Hs. simpl in E3.
  assert (T : negb (String.eqb s "") = true)
    by (apply negb_true_iff, String.eqb_neq; exact Hs).
  specialize (E3 T). apply String.eqb_eq in E3. exact E3.
Qed.

(** X6: the events [list_events] returns are ordered newest first by
    [created_at], with or without a status and filters. *)
Theorem list_events_newest_first (st : option string) (limit : Z) (fs : list EventFilter)
    (w w' : World) (r : list Event) :
  list_events st limit fs w = (inl r, w') ->
  StronglySorted (fun a b => b.(created_at) <= a.(created_at)) r.
Proof.
  intro H. exact (proj1 (proj2 (proj2 (proj2 (list_events_inv st limit fs w w' r H))))).
Qed.

Lemma list_events_range_error (st : option string) (limit : Z) (fs : list EventFilter)
    (w : World) :
  limit < 1 \/ 100 < limit ->
  list_events st limit fs w = (inr (ValueError "limit must be between 1 and 100"), w).
Proof.
  intro H. unfold list_events.
  replace ((limit <=? 0) || (100 <? limit)) with true; [reflexivity|].
  symmetry. apply orb_true_iff. destruct H; [left; apply Z.leb_le|right; apply Z.ltb_lt]; lia.
Qed.

(** X7: [list_events] refuses a [limit] outside 1..100 with a [ValueError]
    and reads nothing. *)
Theorem list_events_limit_range (st : option string) (limit : Z) (fs : list EventFilter)
    (w : World) :
  limit < 1 \/ 100 < limit ->
  list_events st limit fs w = (inr (ValueError "limit must be between 1 and 100"), w).
Proof. exact (list_events_range_error st limit fs w). Qed.

(** Reading handlers. *)

(** X8: the [list_events] handler answers a [limit] above 100 with a 400;
    a [limit] below 1 passes that check and fails in the store call, which
    the handler turns into a 500.  Neither touches the world. *)
Theorem list_events_h_limits (status : option string) (qp : QueryParams) (w : World) :
  (forall limit, 100 < limit ->
     list_events_h status limit qp w
     = (inr (HTTPException 400 "Limit cannot exceed 100"), w))
  /\ (forall limit, limit < 1 ->
     list_events_h status limit qp w
     = (inr (HTTPException 500 "Failed to list events"), w)).
Proof.
  split; intros limit Hl; unfold list_events_h.
  - replace (100 <? limit) with true by (symmetry; apply Z.ltb_lt; lia). reflexivity.
  - replace (100 <? limit) with false by (symmetry; apply Z.ltb_ge; lia).
    unfold bind, try_except.
    rewrite (list_events_range_error status limit (parse_filter_params qp) w)
      by (left; exact Hl).
    reflexivity.
Qed.

Lemma status_str_pending (s : Status) : String.eqb (status_str s) "pending" = true -> s = Pending.
Proof. destruct s; simpl; [reflexivity|discriminate..]. Qed.

(** X9: every entry of a successful inbox read answers 200 with a pending
    event of the store, shown without its [user_id] and [idempotency_key];
    there are at most [limit] of them, newest first, and the world is left
    as it was. *)
Theorem get_inbox_pending (limit : Z) (w w' : World) (rs : list EventResponse) :
  get_inbox limit w = (inl rs, w') ->
  w' = w /\ (length rs <= Z.to_nat limit)%nat
  /\ StronglySorted (fun a b => b.(resp_event).(created_at) <= a.(resp_event).(created_at)) rs
  /\ (forall r, In r rs ->
        r.(resp_code) = 200 /\ r.(resp_event).(status) = Pending
        /\ r.(resp_event).(user_id) = None /\ r.(resp_event).(idempotency_key) = None
        /\ exists e, In e w.(table) /\ e.(status) = Pending
                     /\ r.(resp_event).(event_id) = e.(event_id)
                     /\ r.(resp_event).(payload) = e.(payload)).
Proof.
  unfold get_inbox. destruct (100 <? limit); [intro H; discriminate H|].
  unfold try_except, bind.
  destruct (list_events (Some "pending"%string) limit [] w) as [[evs|x] w1] eqn:Hl.
  - intro H. unfold ret in H. injection H as <- <-.
    destruct (list_events_inv _ _ _ _ _ _ Hl) as (-> & _ & Hlen & Hs & Hin).
    split; [reflexivity|]. split; [rewrite length_map; exact Hlen|]. split.
    + clear Hin Hl Hlen. induction evs as [|e evs IH]; simpl; [constructor|].
      inversion Hs as [|? ? Hs' Hf]; subst. constructor; [exact (IH Hs')|].
      apply Forall_forall. intros r Hr. apply in_map_iff in Hr as (e' & <- & He').
      exact (proj1 (Forall_forall _ _) Hf e' He').
    + intros r Hr. apply in_map_iff in Hr as (e & <- & He).
      destruct (Hin e He) as (E1 & _ & E3). specialize (E3 eq_refl).
      simpl in E3. apply status_str_pending in E3.
      simpl. split; [reflexivity|]. split; [exact E3|]. split; [reflexivity|].
      split; [reflexivity|]. exists e. repeat split; assumption.
  - intro H. discriminate H.
Qed.

(** X10: the inbox answers a [limit] above 100 with a 400 and a [limit]
    below 1 with a 500 "Failed to retrieve inbox", without touching the
    world. *)
Theorem get_inbox_limits (w : World) :
  (forall limit, 100 < limit ->
     get_inbox limit w = (inr (HTTPException 400 "Limit cannot exceed 100"), w))
  /\ (forall limit, limit < 1 ->
     get_inbox limit w = (inr (HTTPException 500 "Failed to retrieve inbox"), w)).
Proof.
  split; intros limit Hl; unfold get_inbox.
  - replace (100 <? limit) with true by (symmetry; apply Z.ltb_lt; lia). reflexivity.
  - replace (100 <? limit) with false by (symmetry; apply Z.ltb_ge; lia).
    unfold try_except, bind.
    rewrite (list_events_range_error (Some "pending"%string) limit [] w) by (left; exact Hl).
    reflexivity.
Qed.

Lemma table_get_put_other (eid : string) (e : Event) (t : list Event) :
  eid <> e.(event_id) -> table_get eid (table_put e t) = table_get eid t.
Proof.
  intro Hne. induction t as [|x t IH]; simpl.
  - rewrite (eqb_neq_false e.(event_id) eid); [reflexivity|congruence].
  - destruct (String.eqb x.(event_id) e.(event_id)) eqn:E; simpl.
    + apply String.eqb_eq in E.
      rewrite (eqb_neq_false e.(event_id) eid) by congruence.
      rewrite (eqb_neq_false x.(event_id) eid) by congruence. reflexivity.
    + rewrite IH. reflexivity.
Qed.

(** X11: after [put_event e], reading [e]'s id through the GET handler
    returns [e] with a 200, and every other id reads what it read before. *)
Theorem get_event_h_after_put (e : Event) (w : World) :
  e.(event_id) <> ""%string ->
  exists w', put_event e w = (inl tt, w')
  /\ get_event_h e.(event_id) w' = (inl (retrieved e), w')
  /\ (forall eid, eid <> e.(event_id) -> table_get eid w'.(table) = table_get eid w.(table)).
Proof.
  intro Hne. eexists. split; [reflexivity|]. split.
  - unfold get_event_h, bind, try_except.
    rewrite (get_event_found _ e) by (exact Hne || apply table_get_put_same).
    reflexivity.
  - intros eid Heid. apply table_get_put_other. exact Heid.
Qed.

(** X12: the GET handler answers an id absent from the store with a 404
    naming it, and the empty id (refused by the store) with a 500; the world
    is unchanged. *)
Theorem get_event_h_errors :
  (forall eid w, eid <> ""%string -> table_get eid w.(table) = None ->
     get_event_h eid w = (inr (HTTPException 404 ("Event " ++ eid ++ " not found")), w))
  /\ (forall w, get_event_h "" w = (inr (HTTPException 500 "Failed to retrieve event"), w)).
Proof.
  split.
  - intros eid w Hne Hget. unfold get_event_h, bind, try_except, get_event.
    rewrite (eqb_neq_false _ _ Hne), Hget. reflexivity.
  - intro w. reflexivity.
Qed.

(** Deleting. *)

Lemma table_get_remove_same (eid : string) (t : list Event) :
  table_get eid (filter (fun x => negb (String.eqb x.(event_id) eid)) t) = None.
Proof.
  induction t as [|x t IH]; simpl; [reflexivity|].
  destruct (String.eqb x.(event_id) eid) eqn:E; simpl; [exact IH|].
  rewrite E. exact IH.
Qed.

Lemma table_get_remove_other (eid i : string) (t : list Event) :
  i <> eid ->
  table_get i (filter (fun x => negb (String.eqb x.(event_id) eid)) t) = table_get i t.
Proof.
  intro Hne. induction t as [|x t IH]; simpl; [reflexivity|].
  destruct (String.eqb x.(event_id) eid) eqn:E; simpl.
  - apply String.eqb_eq in E. rewrite (eqb_neq_false x.(event_id) i) by congruence.
    exact IH.
  - rewrite IH. reflexivity.
Qed.

(** X13: DELETE on an absent id answers 204 and changes nothing; on an event
    the caller does not own it answers 403 and changes nothing; otherwise it
    answers 200, the id is gone from the store, every other id reads as
    before, and deleting again answers 204. *)
Theorem delete_event_h_spec (eid : string) (auth_uid : option string) (w : World) :
  eid <> ""%string ->
  (table_get eid w.(table) = None -> delete_event_h eid auth_uid w = (inl 204, w))
  /\ (forall ev, table_get eid w.(table) = Some ev -> owner_ok auth_uid ev = false ->
        delete_event_h eid auth_uid w
        = (inr (HTTPException 403 "You can only delete your own events"), w))
  /\ (forall ev, table_get eid w.(table) = Some ev -> owner_ok auth_uid ev = true ->
        exists w', delete_event_h eid auth_uid w = (inl 200, w')
        /\ table_get eid w'.(table) = None
        /\ (forall i, i <> eid -> table_get i w'.(table) = table_get i w.(table))
        /\ delete_event_h eid auth_uid w' = (inl 204, w')).
Proof.
  intro Hne. unfold delete_event_h, try_except, bind, get_event.
  rewrite (eqb_neq_false _ _ Hne).
  split; [|split].
  - intro H. rewrite H. reflexivity.
  - intros ev H Ho. rewrite H, Ho. reflexivity.
  - intros ev H Ho. rewrite H, Ho. simpl. unfold delete_event.
    rewrite (eqb_neq_false _ _ Hne). eexists. split; [reflexivity|].
    simpl. split; [apply table_get_remove_same|]. split.
    + intros i Hi. apply table_get_remove_other. exact Hi.
    + rewrite table_get_remove_same. reflexivity.
Qed.

(** Idempotency lookups. *)

Lemma opt_str_eqb_some (a : option string) (u : string) :
  opt_str_eqb a (Some u) = true <-> a = Some u.
Proof.
  destruct a as [x|]; simpl; [|split; discriminate].
  rewrite String.eqb_eq. split; congruence.
Qed.

(** X14: an idempotency lookup with a non-empty key reads nothing without a
    user id; with one it returns a stored event with that user id and key
    when one exists, and [None] only when no stored event has both. *)
Theorem idempotency_lookup_spec (key : string) (w : World) :
  key <> ""%string ->
  get_event_by_idempotency_key None key w = (inl None, w)
  /\ forall u, exists r,
       get_event_by_idempotency_key (Some u) key w = (inl r, w)
       /\ match r with
          | Some e => In e w.(table) /\ e.(user_id) = Some u /\ e.(idempotency_key) = Some key
          | None => forall e, In e w.(table) ->
                      ~ (e.(user_id) = Some u /\ e.(idempotency_key) = Some key)
          end.
Proof.
  intro Hne. unfold get_event_by_idempotency_key. rewrite (eqb_neq_false _ _ Hne).
  split; [reflexivity|]. intro u.
  exists (find (idem_match u key) w.(table)). split; [reflexivity|].
  destruct (find (idem_match u key) w.(table)) as [e|] eqn:Hf.
  - destruct (find_some _ _ Hf) as [Hin Hm]. unfold idem_match in Hm.
    apply andb_true_iff in Hm as [H1 H2].
    split; [exact Hin|]. split; apply opt_str_eqb_some; assumption.
  - intros e Hin [H1 H2]. pose proof (find_none _ _ Hf e Hin) as Hm.
    unfold idem_match in Hm. apply opt_str_eqb_some in H1, H2.
    rewrite H1, H2 in Hm. discriminate.
Qed.

(** Batch reads. *)

(** X15: a successful [batch_get_events] changes nothing and returns exactly
    the stored events whose id was asked for. *)
Theorem batch_get_events_members (ids : list string) (w w' : World) (evs : list Event) :
  batch_get_events ids w = (inl evs, w') ->
  w' = w /\ forall e, In e evs <-> In e.(event_id) ids /\ table_get e.(event_id) w.(table) = Some e.
Proof.
  unfold batch_get_events. destruct ids as [|i rest].
  - intro H. injection H as <- <-. split; [reflexivity|]. intro e. simpl. tauto.
  - destruct (100 <? Z.of_nat (length (i :: rest))); [intro H; discriminate H|].
    destruct (existsb py_blank (i :: rest)); [intro H; discriminate H|].
    intro H.
    assert (Ee : evs = flat_map (fun i => match table_get i w.(table) with
                                         | Some e => [e] | None => [] end) (i :: rest))
      by congruence.
    assert (Ew : w' = w) by congruence. subst evs w'.
    split; [reflexivity|]. intro e.
    rewrite in_flat_map. split.
    + intros (j & Hj & He). destruct (table_get j w.(table)) as [e'|] eqn:Hg; [|destruct He].
      destruct He as [<-|[]]. rewrite (table_get_id _ _ _ Hg). split; assumption.
    + intros [Hin Hg]. exists e.(event_id). split; [exact Hin|]. rewrite Hg. left. reflexivity.
Qed.

(** X16: [batch_get_events] checks the size before the ids: more than 100
    ids is a size error even when some are blank; up to 100 ids with a blank
    one is an id error.  Neither reads the store. *)
Theorem batch_get_events_errors (ids : list string) (w : World) :
  ((100 < length ids)%nat ->
     batch_get_events ids w = (inr (ValueError "batch size cannot exceed 100 events"), w))
  /\ ((length ids <= 100)%nat -> existsb py_blank ids = true ->
     batch_get_events ids w = (inr (ValueError "all event_ids must be non-empty strings"), w)).
Proof.
  unfold batch_get_events. split.
  - intro Hl. destruct ids as [|i rest]; [simpl in Hl; lia|].
    replace (100 <? Z.of_nat (length (i :: rest))) with true
      by (symmetry; apply Z.ltb_lt; lia). reflexivity.
  - intros Hl Hb. destruct ids as [|i rest]; [discriminate Hb|].
    replace (100 <? Z.of_nat (length (i :: rest))) with false
      by (symmetry; apply Z.ltb_ge; lia). rewrite Hb. reflexivity.
Qed.

(** Updating. *)

(** X17: PATCH answers 404 for an absent id, 403 for an event the caller
    does not own, 400 when the body sets no field, and 400 when it sets the
    payload to null; each of these answers leaves the world as it was. *)
Theorem update_event_h_rejections (eid : string) (request : UpdateEventRequest)
    (auth_uid : option string) (w : World) :
  eid <> ""%string ->
  (table_get eid w.(table) = None ->
     update_event_h eid request auth_uid w
     = (inr (HTTPException 404 ("Event " ++ eid ++ " not found")), w))
  /\ (forall ev, table_get eid w.(table) = Some ev -> owner_ok auth_uid ev = false ->
     update_event_h eid request auth_uid w
     = (inr (HTTPException 403 "You can only update your own events"), w))
  /\ (forall ev, table_get eid w.(table) = Some ev -> owner_ok auth_uid ev = true ->
     is_set request.(upd_payload) || is_set request.(upd_metadata)
       || is_set request.(upd_idempotency_key) = false ->
     update_event_h eid request auth_uid w
     = (inr (HTTPException 400
          "At least one of payload, metadata, or idempotency_key must be provided"), w))
  /\ (forall ev, table_get eid w.(table) = Some ev -> owner_ok auth_uid ev = true ->
     request.(upd_payload) = SetNull ->
     update_event_h eid request auth_uid w
     = (inr (HTTPException 400 "payload cannot be null"), w)).
Proof.
  intro Hne. unfold update_event_h, try_except, bind, get_event.
  rewrite (eqb_neq_false _ _ Hne).
  split; [|split; [|split]].
  - intro H. rewrite H. reflexivity.
  - intros ev H Ho. rewrite H. destruct auth_uid as [u|]; [|discriminate Ho].
    simpl in Ho. rewrite Ho. reflexivity.
  - intros ev H Ho Hs. rewrite H.
    replace (match auth_uid with
             | Some u => if negb (opt_str_eqb ev.(user_id) (Some u))
                         then raise (HTTPException 403 "You can only update your own events")
                         else ret tt
             | None => ret tt end w) with (@inl unit Exc tt, w)
      by (destruct auth_uid as [u|]; [simpl in Ho; rewrite Ho|]; reflexivity).
    rewrite Hs. reflexivity.
  - intros ev H Ho Hp. rewrite H.
    replace (match auth_uid with
             | Some u => if negb (opt_str_eqb ev.(user_id) (Some u))
                         then raise (HTTPException 403 "You can only update your own events")
                         else ret tt
             | None => ret tt end w) with (@inl unit Exc tt, w)
      by (destruct auth_uid as [u|]; [simpl in Ho; rewrite Ho|]; reflexivity).
    rewrite Hp. simpl. reflexivity.
Qed.

(** Batch id collection. *)

Lemma in_names_in (x : string) (s : list string) : in_names x s = true <-> In x s.
Proof.
  unfold in_names. rewrite existsb_exists. split.
  - intros (y & Hy & E). apply String.eqb_eq in E. subst. exact Hy.
  - intro H. exists x. split; [exact H|apply String.eqb_refl].
Qed.

Lemma set_add_in (x y : string) (s : list string) : In y (set_add x s) <-> x = y \/ In y s.
Proof.
  unfold set_add. destruct (in_names x s) eqn:E.
  - apply in_names_in in E. split; [tauto|]. intros [<-|H]; assumption.
  - rewrite in_app_iff. simpl. tauto.
Qed.

Lemma set_add_nodup (x : string) (s : list string) : NoDup s -> NoDup (set_add x s).
Proof.
  unfold set_add. destruct (in_names x s) eqn:E; intro H; [exact H|].
  apply NoDup_app; [exact H|repeat constructor; intros []|].
  intros y Hy [<-|[]]. apply (proj2 (in_names_in x s)) in Hy. congruence.
Qed.

Lemma set_update_spec (xs s : list string) :
  NoDup s -> NoDup (set_update xs s) /\ forall y, In y (set_update xs s) <-> In y xs \/ In y s.
Proof.
  unfold set_update. revert s. induction xs as [|x xs IH]; intros s Hs; simpl.
  - split; [exact Hs|tauto].
  - destruct (IH (set_add x s) (set_add_nodup x s Hs)) as [H1 H2].
    split; [exact H1|]. intro y. rewrite H2, set_add_in. tauto.
Qed.

Lemma collect_fold_spec (auth_uid : option string) (matching : list Event) (acc : list string) :
  NoDup acc ->
  let s := fold_left (fun acc e =>
                        if negb (owner_ok auth_uid e) then acc
                        else if String.eqb e.(event_id) "" then acc
                        else set_add e.(event_id) acc) matching acc in
  NoDup s /\ forall i, In i s -> In i acc \/ exists e, In e matching
                         /\ owner_ok auth_uid e = true /\ e.(event_id) <> ""%string
                         /\ e.(event_id) = i.
Proof.
  revert acc. induction matching as [|e matching IH]; intros acc Hacc; simpl.
  - split; [exact Hacc|]. intros i H. left. exact H.
  - destruct (owner_ok auth_uid e) eqn:Ho; simpl.
    + destruct (String.eqb e.(event_id) "") eqn:Ee.
      * destruct (IH acc Hacc) as [H1 H2]. split; [exact H1|].
        intros i Hi. destruct (H2 i Hi) as [H|(e' & He' & R)]; [left; exact H|].
        right. exists e'. split; [right; exact He'|exact R].
      * destruct (IH _ (set_add_nodup e.(event_id) acc Hacc)) as [H1 H2].
        split; [exact H1|]. intros i Hi.
        destruct (H2 i Hi) as [H|(e' & He' & R)].
        -- apply set_add_in in H as [<-|H]; [|left; exact H].
           right. exists e. split; [left; reflexivity|]. split; [exact Ho|].
           split; [apply String.eqb_neq; exact Ee|reflexivity].
        -- right. exists e'. split; [right; exact He'|exact R].
    + destruct (IH acc Hacc) as [H1 H2]. split; [exact H1|].
      intros i Hi. destruct (H2 i Hi) as [H|(e' & He' & R)]; [left; exact H|].
      right. exists e'. split; [right; exact He'|exact R].
Qed.

Lemma collect_event_ids_inv (auth_uid : option string) (qp : QueryParams)
    (body : option (list string)) (w w' : World) (hf : bool) (s : list string) :
  collect_event_ids auth_uid qp body w = (inl (hf, s), w') ->
  w' = w /\ NoDup s
  /\ (forall i, In i s ->
        (exists e, In e w.(table) /\ owner_ok auth_uid e = true
                   /\ e.(event_id) <> ""%string /\ e.(event_id) = i
                   /\ _event_matches_filters e (parse_filter_params qp) = inl true
                   /\ (forall st, qp_get "status" qp = Some st -> st <> ""%string ->
                                  status_str e.(status) = st))
        \/ (exists ids, body = Some ids /\ In i ids))
  /\ (forall ids i, body = Some ids -> In i ids -> In i s)
  /\ (hf = false -> forall i, In i s -> exists ids, body = Some ids /\ In i ids).
Proof.
  unfold collect_event_ids, bind.
  set (filters := parse_filter_params qp).
  set (hfl := negb (Nat.eqb (length filters) 0) || qp_has "status" qp).
  assert (Hm : forall matching w1,
             (if hfl then list_events (qp_get "status" qp) 100 filters else ret []) w
             = (inl matching, w1) ->
             w1 = w /\ (hfl = false -> matching = [])
             /\ forall e, In e matching ->
                  In e w.(table) /\ _event_matches_filters e filters = inl true
                  /\ (forall st, qp_get "status" qp = Some st -> st <> ""%string ->
                                 status_str e.(status) = st)).
  { intros matching w1 H. destruct hfl.
    - destruct (list_events_inv _ _ _ _ _ _ H) as (-> & _ & _ & _ & Hin).
      split; [reflexivity|]. split; [discriminate|].
      intros e He. destruct (Hin e He) as (E1 & E2 & E3).
      split; [exact E1|]. split; [exact E2|].
      intros st Hst Hne. rewrite Hst in E3. simpl in E3.
      assert (T : negb (String.eqb st "") = true)
        by (apply negb_true_iff, String.eqb_neq; exact Hne).
      specialize (E3 T). apply String.eqb_eq in E3. exact E3.
    - injection H as <- <-. split; [reflexivity|]. split; [reflexivity|]. intros e []. }
  destruct ((if hfl then list_events (qp_get "status" qp) 100 filters else ret []) w)
    as [[matching|x] w1] eqn:Hr; [|intro H; discriminate H].
  destruct (Hm matching w1 eq_refl) as (-> & Hnil & Hin).
  unfold ret. intro H. injection H as Ehf Es Ew. subst w'.
  destruct (collect_fold_spec auth_uid matching [] (NoDup_nil _)) as [F1 F2].
  set (s0 := fold_left _ matching []) in F1, F2, Es.
  assert (Body : NoDup s
                 /\ (forall i, In i s -> In i s0 \/ exists ids, body = Some ids /\ In i ids)
                 /\ (forall ids i, body = Some ids -> In i ids -> In i s)).
  { subst s. destruct body as [[|b bs]|].
    - split; [exact F1|]. split; [intros i Hi; left; exact Hi|].
      intros ids i E Hi. injection E as <-. destruct Hi.
    - destruct (set_update_spec (b :: bs) s0 F1) as [U1 U2].
      split; [exact U1|]. split.
      + intros i Hi. apply U2 in Hi as [Hi|Hi]; [right; exists (b :: bs); split; [reflexivity|exact Hi]|left; exact Hi].
      + intros ids i E Hi. injection E as <-. apply U2. left. exact Hi.
    - split; [exact F1|]. split; [intros i Hi; left; exact Hi|]. intros ids i E. discriminate E. }
  destruct Body as (B1 & B2 & B3).
  split; [reflexivity|]. split; [exact B1|]. split; [|split; [exact B3|]].
  - intros i Hi. destruct (B2 i Hi) as [H|H]; [|right; exact H].
    destruct (F2 i H) as [[]|(e & He & R1 & R2 & R3)]. left. exists e.
    destruct (Hin e He) as (E1 & E2 & E3).
    exact (conj E1 (conj R1 (conj R2 (conj R3 (conj E2 E3))))).
  - intros Hf i Hi. subst hf. destruct (B2 i Hi) as [H|H]; [|exact H].
    rewrite (Hnil Hf) in F2. destruct (F2 i H) as [[]|(e & [] & _)].
Qed.

(** X18: the ids that batch delete and batch replay collect are duplicate
    free; each is either the non-empty id of a stored event the caller owns
    that satisfies the query filters and, when a non-empty [status]
    parameter is given, has that status, or an id of the request body; every body id
    is among them; and without query filters only body ids are collected.
    Collecting reads the store but does not change it. *)
Theorem collect_event_ids_sound (auth_uid : option string) (qp : QueryParams)
    (body : option (list string)) (w w' : World) (hf : bool) (s : list string) :
  collect_event_ids auth_uid qp body w = (inl (hf, s), w') ->
  w' = w /\ NoDup s
  /\ (forall i, In i s ->
        (exists e, In e w.(table) /\ owner_ok auth_uid e = true
                   /\ e.(event_id) <> ""%string /\ e.(event_id) = i
                   /\ _event_matches_filters e (parse_filter_params qp) = inl true
                   /\ (forall st, qp_get "status" qp = Some st -> st <> ""%string ->
                                  status_str e.(status) = st))
        \/ (exists ids, body = Some ids /\ In i ids))
  /\ (forall ids i, body = Some ids -> In i ids -> In i s)
  /\ (hf = false -> forall i, In i s -> exists ids, body = Some ids /\ In i ids).
Proof. exact (collect_event_ids_inv auth_uid qp body w w' hf s). Qed.

(** X23: batch delete with no [event_ids] in the body and no query filter
    or [status] parameter: the handler raises its [ValueError], and the
    [except] clause's [len(None)] raises a [TypeError] that escapes the
    handler, in place of the intended 400.  The world is unchanged. *)
Theorem batch_delete_event_ids_no_target (set_order : list string -> list string)
    (auth_uid : option string) (qp : QueryParams) (w : World) :
  parse_filter_params qp = [] -> qp_has "status" qp = false ->
  batch_delete_event_ids set_order auth_uid qp None w = (inr len_none_error, w).
Proof.
  intros Hf Hs. unfold batch_delete_event_ids, collect_event_ids, bind, try_except, lift.
  cbn -[parse_filter_params qp_has]. rewrite Hf, Hs. reflexivity.
Qed.

(** A successful filter-mode batch update: what it targets. *)
Lemma batch_update_items_filter_inv (auth_uid : option string) (qp : QueryParams)
    (request : BatchUpdateEventRequest) (w : World) (items : list BatchUpdateEventItem)
    (w' : World) :
  request.(bur_events) = None ->
  batch_update_items auth_uid qp request w = (inl items, w') ->
  w' = w /\ (length items <= 100)%nat
  /\ forall it, In it items ->
       exists e, In e w.(table) /\ owner_ok auth_uid e = true
                 /\ _event_matches_filters e (parse_filter_params qp) = inl true
                 /\ it.(bui_event_id) = e.(event_id)
                 /\ it.(bui_payload) = request.(bur_payload)
                 /\ it.(bui_metadata) = request.(bur_metadata)
                 /\ it.(bui_idempotency_key) = request.(bur_idempotency_key).
Proof.
  intro Hn. unfold batch_update_items, bind, try_except, lift.
  destruct (batch_update_request_ok request) as [[]|x]; [|intro H; discriminate H].
  rewrite Hn. cbn -[parse_filter_params list_events qp_has qp_get].
  destruct (Nat.eqb (length (parse_filter_params qp)) 0 && negb (qp_has "status" qp));
    [intro H; discriminate H|].
  destruct (list_events (qp_get "status" qp) 100 (parse_filter_params qp) w)
    as [[matching|x] w1] eqn:Hl; [|intro H; discriminate H].
  intro H. injection H as <- <-.
  destruct (list_events_inv _ _ _ _ _ _ Hl) as (-> & _ & Hlen & _ & Hin).
  split; [reflexivity|]. split.
  - rewrite length_map. pose proof (filter_length_le (owner_ok auth_uid) matching). lia.
  - intros it Hit. apply in_map_iff in Hit as (e & <- & He).
    apply filter_In in He as [He Ho]. exists e.
    destruct (Hin e He) as (E1 & E2 & _).
    split; [exact E1|]. split; [exact Ho|]. split; [exact E2|]. simpl. repeat split.
Qed.

(** X19: filter mode of batch update (no [events] in the body).  A body
    that sets none of payload, metadata and idempotency key is refused by
    request validation with 422.  Otherwise, with no filter and no [status]
    parameter, the handler's [ValueError] reaches its [except] clause,
    where [len(None)] raises a [TypeError] that escapes the handler (a 500
    from the framework, not the intended 400).  A successful run targets
    only stored events the caller owns that satisfy the filters, at most 100
    of them, each with the payload, metadata and idempotency key of the
    request.  None of these changes the world. *)
Theorem batch_update_items_filter_mode (auth_uid : option string) (qp : QueryParams)
    (request : BatchUpdateEventRequest) (w : World) :
  request.(bur_events) = None ->
  (request.(bur_payload) = None -> request.(bur_metadata) = None ->
   request.(bur_idempotency_key) = None ->
   batch_update_items auth_uid qp request w
   = (inr (HTTPException 422 "Unprocessable Entity"), w))
  /\ (batch_update_request_ok request = inl tt ->
      parse_filter_params qp = [] -> qp_has "status" qp = false ->
      batch_update_items auth_uid qp request w = (inr len_none_error, w))
  /\ (forall items w', batch_update_items auth_uid qp request w = (inl items, w') ->
     w' = w /\ (length items <= 100)%nat
     /\ forall it, In it items ->
          exists e, In e w.(table) /\ owner_ok auth_uid e = true
                    /\ _event_matches_filters e (parse_filter_params qp) = inl true
                    /\ it.(bui_event_id) = e.(event_id)
                    /\ it.(bui_payload) = request.(bur_payload)
                    /\ it.(bui_metadata) = request.(bur_metadata)
                    /\ it.(bui_idempotency_key) = request.(bur_idempotency_key)).
Proof.
  intro Hn. split; [|split].
  - intros Hp Hm Hk. unfold batch_update_items, batch_update_request_ok, bind, lift.
    rewrite Hn, Hp, Hm, Hk. reflexivity.
  - intros Hok Hf Hs. unfold batch_update_items, bind, try_except, lift.
    rewrite Hok, Hn. cbn -[parse_filter_params qp_has]. rewrite Hf, Hs. reflexivity.
  - intros items w'. exact (batch_update_items_filter_inv auth_uid qp request w items w' Hn).
Qed.

(** Merging batch results. *)

Lemma dict_get_set_same {A} (k : string) (v : A) (d : list (string * A)) :
  dict_get k (dict_set k v d) = Some v.
Proof.
  induction d as [|[k' v'] d IH]; simpl; [now rewrite String.eqb_refl|].
  destruct (String.eqb k k') eqn:E; simpl; [now rewrite String.eqb_refl|now rewrite E].
Qed.

Lemma dict_get_set_other {A} (k k' : string) (v : A) (d : list (string * A)) :
  k' <> k -> dict_get k' (dict_set k v d) = dict_get k' d.
Proof.
  intro Hne. induction d as [|[k1 v1] d IH]; simpl.
  - rewrite (eqb_neq_false k' k Hne). reflexivity.
  - destruct (String.eqb k k1) eqn:E; simpl.
    + apply String.eqb_eq in E. subst k1. rewrite (eqb_neq_false k' k Hne). reflexivity.
    + rewrite IH. reflexivity.
Qed.

Lemma merge_entry_other (fa : (Z + Q) -> (Z + Q) -> Q) (k k1 : string) (v1 : pyval)
    (m m1 : list (string * pyval)) :
  k <> k1 -> merge_entry fa m (k1, v1) = inl m1 -> dict_get k m1 = dict_get k m.
Proof.
  intros Hne H. unfold merge_entry in H.
  destruct v1;
    repeat match type of H with
           | context [match ?t with _ => _ end] => destruct t; try discriminate H
           end;
    injection H as <-; apply dict_get_set_other; exact Hne.
Qed.

Lemma merge_entries_app (fa : (Z + Q) -> (Z + Q) -> Q) (m : list (string * pyval))
    (a b : list (string * pyval)) :
  merge_entries fa m (a ++ b)
  = match merge_entries fa m a with inl m' => merge_entries fa m' b | inr e => inr e end.
Proof.
  revert m. induction a as [|kv a IH]; intro m; simpl; [reflexivity|].
  destruct (merge_entry fa m kv); [apply IH|reflexivity].
Qed.

Lemma merge_results_concat (fa : (Z + Q) -> (Z + Q) -> Q) (m : list (string * pyval))
    (rs : list (list (string * pyval))) :
  merge_results fa m rs = merge_entries fa m (concat rs).
Proof.
  revert m. induction rs as [|r rs IH]; intro m; simpl; [reflexivity|].
  rewrite merge_entries_app. destruct (merge_entries fa m r); [apply IH|reflexivity].
Qed.

Lemma existsb_filter_nil {A} (p : A -> bool) (l : list A) :
  existsb p l = false -> filter p l = [].
Proof.
  induction l as [|x l IH]; simpl; [reflexivity|].
  destruct (p x); [discriminate|exact IH].
Qed.

Lemma filter_nonnil_existsb {A} (p : A -> bool) (l : list A) :
  filter p l <> [] -> existsb p l = true.
Proof.
  intro H. destruct (existsb p l) eqn:E; [reflexivity|].
  exfalso. exact (H (existsb_filter_nil p l E)).
Qed.

Lemma merge_entries_int (fa : (Z + Q) -> (Z + Q) -> Q) (k : string)
    (kvs m m' : list (string * pyval)) (z0 : Z) :
  (dict_get k m = Some (VInt z0) \/ (dict_get k m = None /\ z0 = 0)) ->
  (forall kv, In kv (filter (fun kv => String.eqb (fst kv) k) kvs) -> exists z, snd kv = VInt z) ->
  merge_entries fa m kvs = inl m' ->
  dict_get k m' =
    if existsb (fun kv => String.eqb (fst kv) k) kvs
    then Some (VInt (z0 + fold_right Z.add 0
                            (map (fun kv => match snd kv with VInt z => z | _ => 0 end)
                               (filter (fun kv => String.eqb (fst kv) k) kvs))))
    else dict_get k m.
Proof.
  revert m z0. induction kvs as [|[k1 v1] kvs IH]; intros m z0 Hm Hall H;
    cbn [merge_entries existsb filter fst snd map fold_right concat] in *.
  - injection H as <-. reflexivity.
  - destruct (merge_entry fa m (k1, v1)) as [m1|x] eqn:He; [|discriminate H].
    destruct (String.eqb k1 k) eqn:Ek.
    + apply String.eqb_eq in Ek. subst k1.
      destruct (Hall (k, v1) (or_introl eq_refl)) as [z1 Ez]. simpl in Ez. subst v1.
      assert (Hm1 : m1 = dict_set k (VInt (z0 + z1)) m).
      { unfold merge_entry in He. destruct Hm as [E|[E ->]]; rewrite E in He;
          simpl in He; injection He as <-; reflexivity. }
      subst m1.
      pose proof (IH _ (z0 + z1) (or_introl (dict_get_set_same _ _ _))
                    (fun kv Hkv => Hall kv (or_intror Hkv)) H) as R.
      rewrite R, dict_get_set_same. simpl.
      destruct (existsb _ kvs) eqn:Ex.
      * f_equal. f_equal. lia.
      * rewrite (existsb_filter_nil _ _ Ex). simpl. f_equal. f_equal. lia.
    + assert (Hne : k <> k1) by (apply String.eqb_neq in Ek; congruence).
      pose proof (merge_entry_other fa k k1 v1 m m1 Hne He) as E1.
      rewrite <- E1 in Hm.
      rewrite (IH m1 z0 Hm Hall H), E1. reflexivity.
Qed.

Lemma merge_entries_list (fa : (Z + Q) -> (Z + Q) -> Q) (k : string)
    (kvs m m' : list (string * pyval)) (l0 : list pyval) :
  (dict_get k m = Some (VList l0) \/ (dict_get k m = None /\ l0 = [])) ->
  (forall kv, In kv (filter (fun kv => String.eqb (fst kv) k) kvs) -> exists l, snd kv = VList l) ->
  merge_entries fa m kvs = inl m' ->
  dict_get k m' =
    if existsb (fun kv => String.eqb (fst kv) k) kvs
    then Some (VList (l0 ++ concat
                       (map (fun kv => match snd kv with VList l => l | _ => [] end)
                          (filter (fun kv => String.eqb (fst kv) k) kvs))))
    else dict_get k m.
Proof.
  revert m l0. induction kvs as [|[k1 v1] kvs IH]; intros m l0 Hm Hall H;
    cbn [merge_entries existsb filter fst snd map fold_right concat] in *.
  - injection H as <-. reflexivity.
  - destruct (merge_entry fa m (k1, v1)) as [m1|x] eqn:He; [|discriminate H].
    destruct (String.eqb k1 k) eqn:Ek.
    + apply String.eqb_eq in Ek. subst k1.
      destruct (Hall (k, v1) (or_introl eq_refl)) as [l1 El]. simpl in El. subst v1.
      assert (Hm1 : m1 = dict_set k (VList (l0 ++ l1)) m).
      { unfold merge_entry in He. destruct Hm as [E|[E ->]]; rewrite E in He;
          injection He as <-; reflexivity. }
      subst m1.
      pose proof (IH _ (l0 ++ l1) (or_introl (dict_get_set_same _ _ _))
                    (fun kv Hkv => Hall kv (or_intror Hkv)) H) as R.
      rewrite R, dict_get_set_same. simpl.
      destruct (existsb _ kvs) eqn:Ex.
      * rewrite app_assoc. reflexivity.
      * rewrite (existsb_filter_nil _ _ Ex). simpl. rewrite !app_nil_r. reflexivity.
    + assert (Hne : k <> k1) by (apply String.eqb_neq in Ek; congruence).
      pose proof (merge_entry_other fa k k1 v1 m m1 Hne He) as E1.
      rewrite <- E1 in Hm.
      rewrite (IH m1 l0 Hm Hall H), E1. reflexivity.
Qed.

(** X20: when [merge_batch_results] succeeds, a key whose values across all
    chunk results are ints holds their sum, and a key whose values are lists
    holds their concatenation in chunk order. *)
Theorem merge_batch_results_combines (float_add : (Z + Q) -> (Z + Q) -> Q)
    (rs : list (list (string * pyval))) (m : list (string * pyval)) (k : string) :
  merge_batch_results float_add rs = inl m ->
  filter (fun kv => String.eqb (fst kv) k) (concat rs) <> [] ->
  ((forall kv, In kv (filter (fun kv => String.eqb (fst kv) k) (concat rs)) ->
      exists z, snd kv = VInt z) ->
   dict_get k m = Some (VInt (fold_right Z.add 0
                    (map (fun kv => match snd kv with VInt z => z | _ => 0 end)
                       (filter (fun kv => String.eqb (fst kv) k) (concat rs))))))
  /\ ((forall kv, In kv (filter (fun kv => String.eqb (fst kv) k) (concat rs)) ->
      exists l, snd kv = VList l) ->
   dict_get k m = Some (VList (concat
                    (map (fun kv => match snd kv with VList l => l | _ => [] end)
                       (filter (fun kv => String.eqb (fst kv) k) (concat rs)))))).
Proof.
  intros H Hne. unfold merge_batch_results in H.
  assert (H' : merge_entries float_add [] (concat rs) = inl m).
  { destruct rs as [|r rs]; [simpl in Hne; contradiction|].
    rewrite <- merge_results_concat. exact H. }
  pose proof (filter_nonnil_existsb _ _ Hne) as Ex.
  split; intro Hall.
  - rewrite (merge_entries_int float_add k (concat rs) [] m 0 (or_intror (conj eq_refl eq_refl))
               Hall H'), Ex.
    reflexivity.
  - rewrite (merge_entries_list float_add k (concat rs) [] m [] (or_intror (conj eq_refl eq_refl))
               Hall H'), Ex.
    reflexivity.
Qed.

(** Batch writes. *)

Lemma chunk_list_concat {A} (items : list A) (k : Z) :
  0 < k -> exists chunks, chunk_list items k = inl chunks /\ concat chunks = items.
Proof.
  intro Hk. rewrite (chunk_list_nat items k Hk). eexists. split; [reflexivity|].
  apply chunks_concat. exact (proj1 (chunk_count_bounds (length items) k Hk)).
Qed.

Lemma py_remove_sub (x y : string) (l : list string) : In y (py_remove x l) -> In y l.
Proof.
  induction l as [|z l IH]; simpl; [tauto|].
  destruct (String.eqb z x); simpl; [tauto|]. intros [H|H]; [left; exact H|right; exact (IH H)].
Qed.

Lemma py_remove_cover (x y : string) (l : list string) :
  In y l -> In y (py_remove x l) \/ y = x.
Proof.
  induction l as [|z l IH]; simpl; [tauto|].
  destruct (String.eqb z x) eqn:E; simpl.
  - apply String.eqb_eq in E. subst z. intros [<-|H]; [right; reflexivity|left; exact H].
  - intros [<-|H]; [left; left; reflexivity|]. destruct (IH H); [left; right|right]; assumption.
Qed.

Lemma processed_ids_spec (chunk unprocessed : list string) :
  (forall y, In y (processed_ids chunk unprocessed) -> In y chunk)
  /\ (forall y, In y chunk -> In y (processed_ids chunk unprocessed) \/ In y unprocessed).
Proof.
  unfold processed_ids. revert chunk. induction unprocessed as [|u us IH]; intro chunk; simpl.
  - split; [tauto|]. intros y H. left. exact H.
  - destruct (IH (if in_names u chunk then py_remove u chunk else chunk)) as [H1 H2].
    split.
    + intros y Hy. apply H1 in Hy. destruct (in_names u chunk); [|exact Hy].
      exact (py_remove_sub u y chunk Hy).
    + intros y Hy. destruct (in_names u chunk).
      * destruct (py_remove_cover u y chunk Hy) as [H|<-].
        -- destruct (H2 y H); [left|right; right]; assumption.
        -- right. left. reflexivity.
      * destruct (H2 y Hy); [left|right; right]; assumption.
Qed.

Lemma table_get_filter_ids (i : string) (p : list string) (t : list Event) :
  table_get i (filter (fun x => negb (in_names x.(event_id) p)) t)
  = if in_names i p then None else table_get i t.
Proof.
  induction t as [|x t IH]; simpl; [destruct (in_names i p); reflexivity|].
  destruct (in_names x.(event_id) p) eqn:Ex; simpl.
  - rewrite IH. destruct (String.eqb x.(event_id) i) eqn:E; [|reflexivity].
    apply String.eqb_eq in E. rewrite <- E, Ex. reflexivity.
  - destruct (String.eqb x.(event_id) i) eqn:E; [|exact IH].
    apply String.eqb_eq in E. rewrite <- E, Ex. reflexivity.
Qed.

Lemma delete_chunks_spec (outcomes : list WriteOutcome) (chunks : list (list string))
    (w w' : World) (succ failed : list string) :
  delete_chunks outcomes chunks w = (inl (succ, failed), w') ->
  (forall i, In i (concat chunks) -> In i succ \/ In i failed)
  /\ (forall i, In i succ -> In i (concat chunks))
  /\ (forall i, In i succ -> table_get i w'.(table) = None)
  /\ (forall i, ~ In i succ -> table_get i w'.(table) = table_get i w.(table)).
Proof.
  revert outcomes w succ failed. induction chunks as [|c rest IH];
    intros outcomes w succ failed H; simpl in H.
  - injection H as <- <- <-. simpl. repeat split; intros i []. 
  - assert (Hc : exists o os, (let '(o, os) := match outcomes with
                                                | [] => (WriteOk [], [])
                                                | o :: os => (o, os) end in
                               r <- delete_chunk o c ;;
                               rs <- delete_chunks os rest ;;
                               ret (fst r ++ fst rs, snd r ++ snd rs))
                              = (r <- delete_chunk o c ;;
                                 rs <- delete_chunks os rest ;;
                                 ret (fst r ++ fst rs, snd r ++ snd rs)))
      by (destruct outcomes as [|o os]; [exists (WriteOk []), []|exists o, os]; reflexivity).
    destruct Hc as (o & os & Hc). rewrite Hc in H. clear Hc.
    unfold bind in H.
    assert (Hd : exists p u w1, delete_chunk o c w = (inl (p, u), w1)
                 /\ (forall i, In i c -> In i p \/ In i u)
                 /\ (forall i, In i p -> In i c)
                 /\ (forall i, table_get i w1.(table) = if in_names i p then None
                                                          else table_get i w.(table))).
    { destruct o as [u|x]; simpl.
      - destruct (processed_ids_spec c u) as [P1 P2].
        exists (processed_ids c u), u, (set_table (filter (fun x => negb (in_names x.(event_id) (processed_ids c u))) w.(table)) w).
        split; [reflexivity|]. split; [exact P2|]. split; [exact P1|].
        intro i. apply table_get_filter_ids.
      - exists [], c, w. split; [reflexivity|]. split; [intros i Hi; right; exact Hi|].
        split; [intros i []|reflexivity]. }
    destruct Hd as (p & u & w1 & Hd & D1 & D2 & D3). rewrite Hd in H.
    destruct (delete_chunks os rest w1) as [[[s2 f2]|x] w2] eqn:Hr; [|discriminate H].
    injection H as <- <- <-. simpl.
    destruct (IH os w1 s2 f2 Hr) as (R1 & R2 & R3 & R4).
    split; [|split; [|split]].
    + intros i Hi. rewrite !in_app_iff. apply in_app_or in Hi as [Hi|Hi].
      * destruct (D1 i Hi); tauto.
      * destruct (R1 i Hi); tauto.
    + intros i Hi. apply in_app_or in Hi as [Hi|Hi]; apply in_or_app; [left; exact (D2 i Hi)|right; exact (R2 i Hi)].
    + intros i Hi. destruct (in_dec String.string_dec i s2) as [Hs|Hs]; [exact (R3 i Hs)|].
      rewrite (R4 i Hs), D3. apply in_app_or in Hi as [Hi|Hi]; [|contradiction].
      apply (proj2 (in_names_in i p)) in Hi. rewrite Hi. reflexivity.
    + intros i Hi. rewrite in_app_iff in Hi.
      rewrite R4 by tauto. rewrite D3.
      destruct (in_names i p) eqn:E; [|reflexivity].
      apply in_names_in in E. tauto.
Qed.

(** X21: after [batch_delete_events], every requested id is reported
    successful or failed; the successful ids are requested ids and are gone
    from the store, and every id not reported successful reads as before,
    whatever [batch_write_item] answers for each chunk. *)
Theorem batch_delete_events_report (outcomes : list WriteOutcome) (event_ids : list string)
    (w w' : World) (succ failed : list string) :
  batch_delete_events outcomes event_ids w = (inl (succ, failed), w') ->
  (forall i, In i event_ids -> In i succ \/ In i failed)
  /\ (forall i, In i succ -> In i event_ids)
  /\ (forall i, In i succ -> table_get i w'.(table) = None)
  /\ (forall i, ~ In i succ -> table_get i w'.(table) = table_get i w.(table)).
Proof.
  unfold batch_delete_events. destruct event_ids as [|e0 rest0] eqn:Eids.
  - intro H. injection H as <- <- <-. repeat split; intros i [].
  - rewrite <- Eids.
    destruct (100 <? Z.of_nat (length event_ids)); [intro H; discriminate H|].
    destruct (existsb py_blank event_ids); [intro H; discriminate H|].
    destruct (chunk_list_concat event_ids 25 ltac:(lia)) as (chunks & Hch & Hcat).
    rewrite Hch. intro H.
    destruct (delete_chunks_spec outcomes chunks w w' succ failed H) as (R1 & R2 & R3 & R4).
    rewrite Hcat in R1, R2. split; [exact R1|]. split; [exact R2|]. split; [exact R3|exact R4].
Qed.

Lemma table_get_put_all_other (i : string) (evs : list Event) (t : list Event) :
  (forall ev, In ev evs -> ev.(event_id) <> i) ->
  table_get i (fold_left (fun t ev => table_put ev t) evs t) = table_get i t.
Proof.
  revert t. induction evs as [|ev evs IH]; intros t H; simpl; [reflexivity|].
  rewrite IH by (intros e He; exact (H e (or_intror He))).
  apply table_get_put_other. intro E. exact (H ev (or_introl eq_refl) (eq_sym E)).
Qed.

Lemma table_get_put_all_some (i : string) (evs : list Event) (t : list Event) :
  (exists ev, In ev evs /\ ev.(event_id) = i) ->
  exists ev, In ev evs /\ ev.(event_id) = i
             /\ table_get i (fold_left (fun t ev => table_put ev t) evs t) = Some ev.
Proof.
  revert t. induction evs as [|ev0 evs IH]; intros t H; simpl.
  - destruct H as (ev & [] & _).
  - destruct (existsb (fun ev => String.eqb ev.(event_id) i) evs) eqn:Ex.
    + apply existsb_exists in Ex as (ev & Hin & E). apply String.eqb_eq in E.
      destruct (IH (table_put ev0 t) (ex_intro _ ev (conj Hin E))) as (ev' & H1 & H2 & H3).
      exists ev'. split; [right; exact H1|]. split; assumption.
    + assert (Hn : forall ev, In ev evs -> ev.(event_id) <> i).
      { intros ev Hin E. apply (proj2 (not_true_iff_false _)) in Ex. apply Ex.
        apply existsb_exists. exists ev. split; [exact Hin|]. apply String.eqb_eq. exact E. }
      destruct H as (ev & [<-|Hin] & E).
      * exists ev0. split; [left; reflexivity|]. split; [exact E|].
        rewrite table_get_put_all_other by exact Hn. rewrite <- E. apply table_get_put_same.
      * exfalso. exact (Hn ev Hin E).
Qed.

Lemma map_fst_pairs {A B} (l : list A) (b : B) : map fst (map (fun a => (a, b)) l) = l.
Proof. induction l as [|a l IH]; simpl; congruence. Qed.

Lemma put_chunks_spec (outcomes : list WriteOutcome) (chunks : list (list Event))
    (w w' : World) (succ : list string) (failed : list (string * string)) :
  put_chunks outcomes chunks w = (inl (succ, failed), w') ->
  (forall ev, In ev (concat chunks) -> In ev.(event_id) succ \/ In ev.(event_id) (map fst failed))
  /\ (forall i, In i succ -> exists ev, In ev (concat chunks) /\ ev.(event_id) = i
                                     /\ table_get i w'.(table) = Some ev)
  /\ (forall i, ~ In i succ -> table_get i w'.(table) = table_get i w.(table)).
Proof.
  revert outcomes w succ failed. induction chunks as [|c rest IH];
    intros outcomes w succ failed H; simpl in H.
  - injection H as <- <- <-. simpl. repeat split; [intros ev []|intros i []].
  - assert (Hc : exists o os, (let '(o, os) := match outcomes with
                                                | [] => (WriteOk [], [])
                                                | o :: os => (o, os) end in
                               r <- put_chunk o c ;;
                               rs <- put_chunks os rest ;;
                               ret (fst r ++ fst rs, snd r ++ snd rs))
                              = (r <- put_chunk o c ;;
                                 rs <- put_chunks os rest ;;
                                 ret (fst r ++ fst rs, snd r ++ snd rs)))
      by (destruct outcomes as [|o os]; [exists (WriteOk []), []|exists o, os]; reflexivity).
    destruct Hc as (o & os & Hc). rewrite Hc in H. clear Hc.
    unfold bind in H.
    assert (Hd : exists p f w1, put_chunk o c w = (inl (p, f), w1)
                 /\ (forall ev, In ev c -> In ev.(event_id) p \/ In ev.(event_id) (map fst f))
                 /\ (forall i, In i p -> exists ev, In ev c /\ ev.(event_id) = i
                                                   /\ table_get i w1.(table) = Some ev)
                 /\ (forall i, ~ In i p -> table_get i w1.(table) = table_get i w.(table))).
    { destruct o as [u|x]; simpl.
      - destruct (processed_ids_spec (map event_id c) u) as [P1 P2].
        set (p := processed_ids (map event_id c) u).
        eexists p, _, _. split; [reflexivity|]. split; [|split].
        + intros ev Hev. rewrite map_fst_pairs. apply P2. apply in_map. exact Hev.
        + intros i Hi. simpl.
          destruct (table_get_put_all_some i (filter (fun ev => in_names ev.(event_id) p) c)
                      w.(table)) as (ev & Hin & E & Hg).
          { pose proof (P1 i Hi) as Hm. apply in_map_iff in Hm as (ev & E & Hin). exists ev. split; [|exact E].
            apply filter_In. split; [exact Hin|]. apply in_names_in. rewrite E. exact Hi. }
          exists ev. split; [exact (proj1 (proj1 (filter_In _ _ _) Hin))|]. split; assumption.
        + intros i Hi. simpl. apply table_get_put_all_other.
          intros ev Hin E. apply filter_In in Hin as [_ Hp]. apply in_names_in in Hp.
          rewrite E in Hp. exact (Hi Hp).
      - eexists [], _, w. split; [reflexivity|]. split; [|split].
        + intros ev Hev. right. rewrite map_map. simpl.
          apply (in_map (fun ev => ev.(event_id))). exact Hev.
        + intros i [].
        + intros i _. reflexivity. }
    destruct Hd as (p & f & w1 & Hd & D1 & D2 & D3). rewrite Hd in H.
    destruct (put_chunks os rest w1) as [[[s2 f2]|x] w2] eqn:Hr; [|discriminate H].
    injection H as <- <- <-. simpl.
    destruct (IH os w1 s2 f2 Hr) as (R1 & R2 & R3).
    split; [|split].
    + intros ev Hev. rewrite map_app, !in_app_iff. apply in_app_or in Hev as [Hev|Hev].
      * destruct (D1 ev Hev); tauto.
      * destruct (R1 ev Hev); tauto.
    + intros i Hi. destruct (in_dec String.string_dec i s2) as [Hs|Hs].
      * destruct (R2 i Hs) as (ev & H1 & H2 & H3). exists ev.
        split; [apply in_or_app; right; exact H1|]. split; assumption.
      * apply in_app_or in Hi as [Hi|Hi]; [|contradiction].
        destruct (D2 i Hi) as (ev & H1 & H2 & H3). exists ev.
        split; [apply in_or_app; left; exact H1|]. split; [exact H2|].
        rewrite (R3 i Hs). exact H3.
    + intros i Hi. rewrite in_app_iff in Hi. rewrite R3 by tauto. apply D3. tauto.
Qed.

(** X22: after [batch_put_events], every event given is reported successful
    or failed by its id; each successful id is the id of an event given, and
    the store now holds one of the events given with that id; every id not
    reported successful reads as before, whatever [batch_write_item] answers
    for each chunk. *)
Theorem batch_put_events_report (outcomes : list WriteOutcome) (events : list Event)
    (w w' : World) (succ : list string) (failed : list (string * string)) :
  batch_put_events outcomes events w = (inl (succ, failed), w') ->
  (forall ev, In ev events -> In ev.(event_id) succ \/ In ev.(event_id) (map fst failed))
  /\ (forall i, In i succ -> exists ev, In ev events /\ ev.(event_id) = i
                                     /\ table_get i w'.(table) = Some ev)
  /\ (forall i, ~ In i succ -> table_get i w'.(table) = table_get i w.(table)).
Proof.
  unfold batch_put_events. destruct events as [|e0 rest0] eqn:Eev.
  - intro H. injection H as <- <- <-. repeat split; [intros ev []|intros i []].
  - rewrite <- Eev.
    destruct (100 <? Z.of_nat (length events)); [intro H; discriminate H|].
    destruct (chunk_list_concat events 25 ltac:(lia)) as (chunks & Hch & Hcat).
    rewrite Hch. intro H.
    destruct (put_chunks_spec outcomes chunks w w' succ failed H) as (R1 & R2 & R3).
    rewrite Hcat in R1, R2. split; [exact R1|]. split; [exact R2|exact R3].
Qed.









(** ** Concrete runs *)

Module Runs.
Import Samples.
Local Open Scope string_scope.


Lemma update_event_redelivery_witness :
  exists r w',
    update_event_h "evt_delivered01" (mkUpdateEventRequest (SetTo [("x", JInt 1)]) Unset Unset)
      None w_replay_push_fails = (inl r, w')
    /\ table_get "evt_delivered01" w'.(table) = Some r.(resp_event)
    /\ ((evt_delivered_once.(status) = Delivered \/ evt_delivered_once.(status) = Replayed) ->
        r.(resp_event).(status) = Pending /\ r.(resp_event).(delivered_at) = None
        /\ w'.(send_log) = (w_replay_push_fails.(send_log) ++ [("evt_delivered01", r.(resp_event))])%list)
    /\ ((evt_delivered_once.(status) = Pending \/ evt_delivered_once.(status) = Failed) ->
        r.(resp_event).(status) = evt_delivered_once.(status)
        /\ w'.(send_log) = w_replay_push_fails.(send_log)).
Proof.
  apply (update_event_redelivery "evt_delivered01"
           (mkUpdateEventRequest (SetTo [("x", JInt 1)]) Unset Unset) None
           evt_delivered_once w_replay_push_fails).
  - discriminate.
  - reflexivity.
  - left. reflexivity.
  - reflexivity.
  - discriminate.
Defined.

Lemma replay_ceiling_witness :
  replay_event "evt_exhausted001" None w_exhausted
  = (inr (HTTPException 400 "Event has exceeded maximum replay attempts (10)"), w_exhausted)
  /\ replay_item (Some "user-1") [("evt_exhausted001", evt_exhausted)] 0 "evt_exhausted001"
       w_exhausted
     = (inl (if owner_ok (Some "user-1") evt_exhausted
             then replay_item_error 0 "evt_exhausted001" "MAX_ATTEMPTS_EXCEEDED"
                    "Event has exceeded maximum replay attempts (10)"
             else replay_item_error 0 "evt_exhausted001" "FORBIDDEN"
                    "You can only replay your own events"), w_exhausted).
Proof.
  split.
  - apply (proj1 replay_ceiling "evt_exhausted001" None evt_exhausted w_exhausted).
    + discriminate.
    + reflexivity.
    + simpl. lia.
  - apply (proj2 replay_ceiling (Some "user-1") [("evt_exhausted001", evt_exhausted)] 0
             "evt_exhausted001" evt_exhausted w_exhausted).
    + reflexivity.
    + simpl. lia.
Defined.


Lemma acknowledge_event_frame_witness :
  exists w' ev',
    acknowledge_event "evt_delivered01" w_replay_push_fails = (inl tt, w')
    /\ table_get "evt_delivered01" w'.(table) = Some ev'
    /\ ev'.(status) = Delivered /\ ev'.(delivered_at) = Some w_replay_push_fails.(clock)
    /\ ev'.(event_id) = evt_delivered_once.(event_id)
    /\ ev'.(event_type) = evt_delivered_once.(event_type)
    /\ ev'.(payload) = evt_delivered_once.(payload)
    /\ ev'.(metadata) = evt_delivered_once.(metadata)
    /\ ev'.(created_at) = evt_delivered_once.(created_at)
    /\ ev'.(delivery_attempts) = evt_delivered_once.(delivery_attempts)
    /\ ev'.(user_id) = evt_delivered_once.(user_id)
    /\ ev'.(idempotency_key) = evt_delivered_once.(idempotency_key).
Proof.
  apply (acknowledge_event_frame "evt_delivered01" evt_delivered_once w_replay_push_fails).
  - discriminate.
  - reflexivity.
Defined.

Lemma chunk_list_roundtrip_witness :
  exists chunks,
    chunk_list [1; 2; 3; 4; 5] 2 = inl chunks
    /\ concat chunks = [1; 2; 3; 4; 5]
    /\ Forall (fun c => c <> []) chunks
    /\ (forall j, (j + 1 < length chunks)%nat ->
        length (nth j chunks []) = Z.to_nat 2).
Proof.
  apply (chunk_list_roundtrip [1; 2; 3; 4; 5] 2).
  lia.
Defined.

Lemma parse_param_key_roundtrip_witness :
  _parse_param_key ("payload.amount" ++ "[" ++ "gte" ++ "]") = inl ("payload.amount", "gte")
  /\ _parse_param_key "payload.amount" = inl ("payload.amount", "eq").
Proof.
  apply parse_param_key_roundtrip.
  - vm_compute. reflexivity.
  - simpl. right. right. left. reflexivity.
Defined.

Lemma list_events_result_witness :
  exists r w',
    list_events None 10 [mkEventFilter "event_type" "startswith" "order."] w_samples
      = (inl r, w')
    /\ w' = w_samples /\ 1 <= 10 <= 100 /\ (length r <= Z.to_nat 10)%nat
    /\ (forall e, In e r ->
          In e w_samples.(table)
          /\ _event_matches_filters e [mkEventFilter "event_type" "startswith" "order."]
             = inl true
          /\ (forall s, None = Some s -> s <> ""%string -> status_str e.(status) = s)).
Proof.
  eexists. eexists. split; [reflexivity|].
  apply (list_events_result None 10 [mkEventFilter "event_type" "startswith" "order."]
           w_samples).
  reflexivity.
Defined.

Lemma list_events_newest_first_witness :
  exists r w',
    list_events None 3 [] w_samples = (inl r, w')
    /\ StronglySorted (fun a b => b.(created_at) <= a.(created_at)) r.
Proof.
  eexists. eexists. split; [reflexivity|].
  eapply (list_events_newest_first None 3 [] w_samples). reflexivity.
Defined.

Lemma list_events_limit_range_witness :
  list_events (Some "pending") 0 [] w_samples
  = (inr (ValueError "limit must be between 1 and 100"), w_samples).
Proof. apply list_events_limit_range. left. lia. Defined.

Lemma get_inbox_pending_witness :
  exists rs w',
    get_inbox 10 w_samples = (inl rs, w')
    /\ w' = w_samples /\ (length rs <= Z.to_nat 10)%nat
    /\ StronglySorted (fun a b => b.(resp_event).(created_at) <= a.(resp_event).(created_at)) rs
    /\ (forall r, In r rs ->
          r.(resp_code) = 200 /\ r.(resp_event).(status) = Pending
          /\ r.(resp_event).(user_id) = None /\ r.(resp_event).(idempotency_key) = None
          /\ exists e, In e w_samples.(table) /\ e.(status) = Pending
                       /\ r.(resp_event).(event_id) = e.(event_id)
                       /\ r.(resp_event).(payload) = e.(payload)).
Proof.
  eexists. eexists. split; [reflexivity|].
  apply (get_inbox_pending 10 w_samples). reflexivity.
Defined.

Lemma get_event_h_after_put_witness :
  exists w', put_event evt_delivered_once w_samples = (inl tt, w')
  /\ get_event_h evt_delivered_once.(event_id) w' = (inl (retrieved evt_delivered_once), w')
  /\ (forall eid, eid <> evt_delivered_once.(event_id) ->
        table_get eid w'.(table) = table_get eid w_samples.(table)).
Proof. apply get_event_h_after_put. discriminate. Defined.

Lemma delete_event_h_spec_witness :
  (table_get "evt_delivered01" w_replay_push_fails.(table) = None ->
     delete_event_h "evt_delivered01" (Some "user-1") w_replay_push_fails
     = (inl 204, w_replay_push_fails))
  /\ (forall ev, table_get "evt_delivered01" w_replay_push_fails.(table) = Some ev ->
        owner_ok (Some "user-1") ev = false ->
        delete_event_h "evt_delivered01" (Some "user-1") w_replay_push_fails
        = (inr (HTTPException 403 "You can only delete your own events"), w_replay_push_fails))
  /\ (forall ev, table_get "evt_delivered01" w_replay_push_fails.(table) = Some ev ->
        owner_ok (Some "user-1") ev = true ->
        exists w', delete_event_h "evt_delivered01" (Some "user-1") w_replay_push_fails
                   = (inl 200, w')
        /\ table_get "evt_delivered01" w'.(table) = None
        /\ (forall i, i <> "evt_delivered01"%string ->
              table_get i w'.(table) = table_get i w_replay_push_fails.(table))
        /\ delete_event_h "evt_delivered01" (Some "user-1") w' = (inl 204, w')).
Proof. apply delete_event_h_spec. discriminate. Defined.

Lemma idempotency_lookup_spec_witness :
  get_event_by_idempotency_key None "order-12345" w_keyed = (inl None, w_keyed)
  /\ forall u, exists r,
       get_event_by_idempotency_key (Some u) "order-12345" w_keyed = (inl r, w_keyed)
       /\ match r with
          | Some e => In e w_keyed.(table) /\ e.(user_id) = Some u
                      /\ e.(idempotency_key) = Some "order-12345"%string
          | None => forall e, In e w_keyed.(table) ->
                      ~ (e.(user_id) = Some u /\ e.(idempotency_key) = Some "order-12345"%string)
          end.
Proof. apply idempotency_lookup_spec. discriminate. Defined.

Lemma batch_get_events_members_witness :
  exists evs w',
    batch_get_events ["evt_test123456"; "evt_missing00001"] w_samples = (inl evs, w')
    /\ w' = w_samples
    /\ forall e, In e evs <-> In e.(event_id) ["evt_test123456"; "evt_missing00001"]
                             /\ table_get e.(event_id) w_samples.(table) = Some e.
Proof.
  eexists. eexists. split; [reflexivity|].
  apply (batch_get_events_members ["evt_test123456"; "evt_missing00001"] w_samples).
  reflexivity.
Defined.

Lemma update_event_h_rejections_witness :
  (table_get "evt_delivered01" w_replay_push_fails.(table) = None ->
     update_event_h "evt_delivered01" (mkUpdateEventRequest Unset Unset Unset) (Some "user-2")
       w_replay_push_fails
     = (inr (HTTPException 404 ("Event " ++ "evt_delivered01" ++ " not found")), w_replay_push_fails))
  /\ (forall ev, table_get "evt_delivered01" w_replay_push_fails.(table) = Some ev ->
       owner_ok (Some "user-2") ev = false ->
       update_event_h "evt_delivered01" (mkUpdateEventRequest Unset Unset Unset) (Some "user-2")
         w_replay_push_fails
       = (inr (HTTPException 403 "You can only update your own events"), w_replay_push_fails))
  /\ (forall ev, table_get "evt_delivered01" w_replay_push_fails.(table) = Some ev ->
       owner_ok (Some "user-2") ev = true ->
       is_set (mkUpdateEventRequest Unset Unset Unset).(upd_payload)
         || is_set (mkUpdateEventRequest Unset Unset Unset).(upd_metadata)
         || is_set (mkUpdateEventRequest Unset Unset Unset).(upd_idempotency_key) = false ->
       update_event_h "evt_delivered01" (mkUpdateEventRequest Unset Unset Unset) (Some "user-2")
         w_replay_push_fails
       = (inr (HTTPException 400
            "At least one of payload, metadata, or idempotency_key must be provided"),
          w_replay_push_fails))
  /\ (forall ev, table_get "evt_delivered01" w_replay_push_fails.(table) = Some ev ->
       owner_ok (Some "user-2") ev = true ->
       (mkUpdateEventRequest Unset Unset Unset).(upd_payload) = SetNull ->
       update_event_h "evt_delivered01" (mkUpdateEventRequest Unset Unset Unset) (Some "user-2")
         w_replay_push_fails
       = (inr (HTTPException 400 "payload cannot be null"), w_replay_push_fails)).
Proof. apply update_event_h_rejections. discriminate. Defined.

Lemma collect_event_ids_sound_witness :
  exists hf s w',
    collect_event_ids None qp_pending body_extra w_samples = (inl (hf, s), w')
    /\ w' = w_samples /\ NoDup s
    /\ (forall i, In i s ->
          (exists e, In e w_samples.(table) /\ owner_ok None e = true
                     /\ e.(event_id) <> ""%string /\ e.(event_id) = i
                     /\ _event_matches_filters e (parse_filter_params qp_pending) = inl true
                     /\ (forall st, qp_get "status" qp_pending = Some st -> st <> ""%string ->
                                    status_str e.(status) = st))
          \/ (exists ids, body_extra = Some ids /\ In i ids))
    /\ (forall ids i, body_extra = Some ids -> In i ids -> In i s)
    /\ (hf = false -> forall i, In i s -> exists ids, body_extra = Some ids /\ In i ids).
Proof.
  eexists. eexists. eexists. split; [reflexivity|].
  apply (collect_event_ids_sound None qp_pending body_extra w_samples). reflexivity.
Defined.

Lemma batch_update_items_filter_mode_witness :
  (mkBatchUpdateEventRequest None (Some [("x", JInt 1)]) None None).(bur_events) = None
  /\ ((mkBatchUpdateEventRequest None (Some [("x", JInt 1)]) None None).(bur_payload) = None ->
      (mkBatchUpdateEventRequest None (Some [("x", JInt 1)]) None None).(bur_metadata) = None ->
      (mkBatchUpdateEventRequest None (Some [("x", JInt 1)]) None None).(bur_idempotency_key)
      = None ->
      batch_update_items None [("event_type[startswith]", "order.")]
        (mkBatchUpdateEventRequest None (Some [("x", JInt 1)]) None None) w_samples
      = (inr (HTTPException 422 "Unprocessable Entity"), w_samples))
  /\ (batch_update_request_ok (mkBatchUpdateEventRequest None (Some [("x", JInt 1)]) None None)
      = inl tt ->
      parse_filter_params [("event_type[startswith]", "order.")] = [] ->
      qp_has "status" [("event_type[startswith]", "order.")] = false ->
      batch_update_items None [("event_type[startswith]", "order.")]
        (mkBatchUpdateEventRequest None (Some [("x", JInt 1)]) None None) w_samples
      = (inr len_none_error, w_samples))
  /\ (forall items w', batch_update_items None [("event_type[startswith]", "order.")]
                         (mkBatchUpdateEventRequest None (Some [("x", JInt 1)]) None None)
                         w_samples = (inl items, w') ->
     w' = w_samples /\ (length items <= 100)%nat
     /\ forall it, In it items ->
          exists e, In e w_samples.(table) /\ owner_ok None e = true
                    /\ _event_matches_filters e
                         (parse_filter_params [("event_type[startswith]", "order.")]) = inl true
                    /\ it.(bui_event_id) = e.(event_id)
                    /\ it.(bui_payload) = Some [("x", JInt 1)]
                    /\ it.(bui_metadata) = None
                    /\ it.(bui_idempotency_key) = None).
Proof. split; [reflexivity|]. apply batch_update_items_filter_mode. reflexivity. Defined.

Lemma batch_delete_event_ids_no_target_witness :
  batch_delete_event_ids (fun s => s) None [] None w_samples = (inr len_none_error, w_samples).
Proof. apply batch_delete_event_ids_no_target; reflexivity. Defined.

Lemma merge_batch_results_combines_witness :
  merge_batch_results (fun _ _ => 0%Q) docstring_results
  = inl [("successful", VInt 18); ("failed", VInt 3);
         ("items", VList [VStr "a"; VStr "b"; VStr "c"; VStr "d"])]
  /\ dict_get "successful" [("successful", VInt 18); ("failed", VInt 3);
         ("items", VList [VStr "a"; VStr "b"; VStr "c"; VStr "d"])] = Some (VInt 18)
  /\ dict_get "items" [("successful", VInt 18); ("failed", VInt 3);
         ("items", VList [VStr "a"; VStr "b"; VStr "c"; VStr "d"])]
     = Some (VList [VStr "a"; VStr "b"; VStr "c"; VStr "d"]).
Proof.
  split; [reflexivity|]. split.
  - apply (proj1 (merge_batch_results_combines (fun _ _ => 0%Q) docstring_results _
                    "successful" eq_refl ltac:(intro Hn; vm_compute in Hn; discriminate Hn))).
    intros kv Hkv. simpl in Hkv. destruct Hkv as [<-|[<-|[]]]; eexists; reflexivity.
  - apply (proj2 (merge_batch_results_combines (fun _ _ => 0%Q) docstring_results _
                    "items" eq_refl ltac:(intro Hn; vm_compute in Hn; discriminate Hn))).
    intros kv Hkv. simpl in Hkv. destruct Hkv as [<-|[<-|[]]]; eexists; reflexivity.
Defined.

Lemma batch_delete_events_report_witness :
  exists succ failed w',
    batch_delete_events [WriteOk ["evt_test789012"]] ["evt_test123456"; "evt_test789012"]
      w_samples = (inl (succ, failed), w')
    /\ (forall i, In i ["evt_test123456"; "evt_test789012"] -> In i succ \/ In i failed)
    /\ (forall i, In i succ -> In i ["evt_test123456"; "evt_test789012"])
    /\ (forall i, In i succ -> table_get i w'.(table) = None)
    /\ (forall i, ~ In i succ -> table_get i w'.(table) = table_get i w_samples.(table)).
Proof.
  eexists. eexists. eexists. split; [reflexivity|].
  apply (batch_delete_events_report [WriteOk ["evt_test789012"]]
           ["evt_test123456"; "evt_test789012"] w_samples). reflexivity.
Defined.

Lemma batch_put_events_report_witness :
  exists succ failed w',
    batch_put_events [WriteOk ["evt_test789012"]] sample_events w0 = (inl (succ, failed), w')
    /\ (forall ev, In ev sample_events ->
          In ev.(event_id) succ \/ In ev.(event_id) (map fst failed))
    /\ (forall i, In i succ -> exists ev, In ev sample_events /\ ev.(event_id) = i
                                       /\ table_get i w'.(table) = Some ev)
    /\ (forall i, ~ In i succ -> table_get i w'.(table) = table_get i w0.(table)).
Proof.
  eexists. eexists. eexists. split; [reflexivity|].
  apply (batch_put_events_report [WriteOk ["evt_test789012"]] sample_events w0). reflexivity.
Defined.

End Runs.
